(** * Request orchestration of the movie search UI

    A shallow embedding of the three hooks that make up the orchestration
    layer of the application:

    - [useMovieCache]      (hooks/useMovieCache.ts)      -- module [Cache]
    - [useMovieDetails]    (hooks/useMovieDetails.ts)    -- module [Details]
    - [useDebouncedSearch] (hooks/useDebouncedSearch.ts) -- module [Search]

    React state cells ([useState]) and refs ([useRef]) become record
    fields; an [async] function is split at its single [await] into the
    part that runs synchronously when it is called and the continuation
    that runs when the awaited promise settles.  An [AbortController] is a
    natural number, fresh for every [new AbortController()], so that the
    identity test [abortControllerRef.current === abortController] is
    equality of numbers. *)

From Stdlib Require Import Ascii String.
From stdpp Require Import gmap strings list.

Open Scope string_scope.

(** ** movie.types.ts *)

Record IMovie := {
  imdbID : string;
  Title : string;
  Year : string;
  Type_ : string;
  Poster : string
}.

Record IRating := {
  Source : string;
  Value : string
}.

(** [IMovieDetails extends IMovie]; the inherited fields come first. *)
Record IMovieDetails := {
  d_imdbID : string;
  d_Title : string;
  d_Year : string;
  d_Type : string;
  d_Poster : string;
  Rated : string;
  Released : string;
  Runtime : string;
  Genre : string;
  Director : string;
  Writer : string;
  Actors : string;
  Plot : string;
  Language : string;
  Country : string;
  Awards : string;
  Ratings : list IRating;
  Metascore : string;
  imdbRating : string;
  imdbVotes : string;
  DVD : string;
  BoxOffice : string;
  Production : string;
  Website : string;
  d_Response : string;
  d_Error : option string
}.

(** [Search] is read through [?.] and [|| []] in the hook, so it may be
    missing at run time; [Error?] is optional in the interface. *)
Record IMovieSearchResponse := {
  Search : option (list IMovie);
  totalResults : string;
  Response : string;
  Error : option string
}.

(** ** The JavaScript primitives the hooks rely on *)

Module JS.

(** Truthiness of a string: every string but the empty one. *)
Definition truthy (s : string) : bool :=
  match s with
  | EmptyString => false
  | String _ _ => true
  end.

(** Truthiness of [x?.f] for an optional string field. *)
Definition truthy_opt (o : option string) : bool :=
  match o with
  | Some s => truthy s
  | None => false
  end.

(** [o || d] for an optional string [o] and a string [d]. *)
Definition or_else (o : option string) (d : string) : string :=
  match o with
  | Some s => if truthy s then s else d
  | None => d
  end.

(** White space of the ASCII range: TAB, LF, VT, FF, CR and SPACE.
    Strings are byte strings here; white space outside ASCII is not
    recognised. *)
Definition is_ws (c : ascii) : bool :=
  let n := nat_of_ascii c in
  ((n =? 9) || (n =? 10) || (n =? 11) || (n =? 12) || (n =? 13)
   || (n =? 32))%nat.

Fixpoint skip_ws (s : string) : string :=
  match s with
  | String c r => if is_ws c then skip_ws r else s
  | EmptyString => s
  end.

(** [!s.trim()]: the trimmed string is empty exactly when nothing is
    left after the leading white space. *)
Definition blank (s : string) : bool := negb (truthy (skip_ws s)).

Definition digit (c : ascii) : option Z :=
  let n := nat_of_ascii c in
  if ((48 <=? n) && (n <=? 57))%nat then Some (Z.of_nat (n - 48)) else None.

(** The longest prefix of decimal digits; [None] when there is none. *)
Fixpoint digits (acc : option Z) (s : string) : option Z :=
  match s with
  | String c r =>
      match digit c with
      | Some d => digits (Some (10 * default 0 acc + d)%Z) r
      | None => acc
      end
  | EmptyString => acc
  end.

(** [parseInt(s, 10)]; [None] stands for [NaN].  Numbers are exact
    integers: the rounding of doubles beyond 2^53 is not modelled. *)
Definition parseInt (s : string) : option Z :=
  match skip_ws s with
  | String "-" r => Z.opp <$> digits None r
  | String "+" r => digits None r
  | t => digits None t
  end.

(** [n > m] where [n] may be [NaN]: every comparison with [NaN] is false. *)
Definition gt (n : option Z) (m : Z) : bool :=
  match n with
  | Some t => (m <? t)%Z
  | None => false
  end.

(** The decimal numeral with the digits [ds], most significant first,
    and the number it denotes. *)
Definition digit_char (d : nat) : ascii := ascii_of_nat (48 + d).

Fixpoint numeral (ds : list nat) : string :=
  match ds with
  | [] => EmptyString
  | d :: ds' => String (digit_char d) (numeral ds')
  end.

Definition numeral_value (ds : list nat) : Z :=
  foldl (fun acc d => (10 * acc + Z.of_nat d)%Z) 0%Z ds.

(** Every character is in the ASCII range, where the white space of
    [is_ws] is all the white space there is. *)
Fixpoint ascii_only (s : string) : bool :=
  match s with
  | EmptyString => true
  | String c r => (nat_of_ascii c <? 128)%nat && ascii_only r
  end.

(** The integers a JavaScript number holds exactly. *)
Definition exact (n : Z) : Prop := (- 2 ^ 53 < n < 2 ^ 53)%Z.

End JS.

(** ** useMovieCache.ts

    [movieDetailsCache] is an object literal, [{}], used as a map from
    IMDb identifiers to detail records.  Such an object has its own
    properties, the ones [addToCache] creates, and a prototype,
    [Object.prototype] at first, through which every read that finds no
    own property goes on.  The name [__proto__] is an accessor of
    [Object.prototype]: reading it gives the prototype of the object, and
    assigning an object to it replaces the prototype. *)

Module Cache.

(** What a read of the cache object can give at run time: a record stored
    by [addToCache]; or, through the prototype, a field of a record, a
    method of [Object.prototype], or [Object.prototype] itself. *)
Inductive value :=
| VRecord (d : IMovieDetails)
| VText (s : string)
| VRatings (l : list IRating)
| VBuiltin (name : string)
| VObjectPrototype.

(** Truthiness: of these values only the empty string is falsy. *)
Definition truthy (v : value) : bool :=
  match v with
  | VText s => JS.truthy s
  | _ => true
  end.

(** The own properties of a record, as [IMovieDetails] declares them;
    [Error] is there only when the remote sent it. *)
Definition fields (d : IMovieDetails) : list (string * value) :=
  [("imdbID", VText (d_imdbID d)); ("Title", VText (d_Title d));
   ("Year", VText (d_Year d)); ("Type", VText (d_Type d));
   ("Poster", VText (d_Poster d)); ("Rated", VText (Rated d));
   ("Released", VText (Released d)); ("Runtime", VText (Runtime d));
   ("Genre", VText (Genre d)); ("Director", VText (Director d));
   ("Writer", VText (Writer d)); ("Actors", VText (Actors d));
   ("Plot", VText (Plot d)); ("Language", VText (Language d));
   ("Country", VText (Country d)); ("Awards", VText (Awards d));
   ("Ratings", VRatings (Ratings d)); ("Metascore", VText (Metascore d));
   ("imdbRating", VText (imdbRating d)); ("imdbVotes", VText (imdbVotes d));
   ("DVD", VText (DVD d)); ("BoxOffice", VText (BoxOffice d));
   ("Production", VText (Production d)); ("Website", VText (Website d));
   ("Response", VText (d_Response d))]
  ++ match d_Error d with
     | Some e => [("Error", VText e)]
     | None => []
     end.

Definition field (d : IMovieDetails) (name : string) : option value :=
  snd <$> List.find (fun p => String.eqb (fst p) name) (fields d).

(** The data properties of [Object.prototype]. *)
Definition object_prototype_names : list string :=
  ["constructor"; "__defineGetter__"; "__defineSetter__"; "hasOwnProperty";
   "__lookupGetter__"; "__lookupSetter__"; "isPrototypeOf";
   "propertyIsEnumerable"; "toString"; "valueOf"; "toLocaleString"].

(** The names that mean something on an empty object. *)
Definition reserved (k : string) : bool :=
  String.eqb k "__proto__" || bool_decide (k ∈ object_prototype_names).

(** The cache object: its own properties and its prototype, [None] for
    [Object.prototype] and [Some d] once the record [d] has been made the
    prototype. *)
Record cache := {
  own : gmap string IMovieDetails;
  proto : option IMovieDetails
}.

(** [{}] *)
Definition empty : cache := {| own := ∅; proto := None |}.

(** What the prototype chain gives for a name that is no own property:
    the prototype itself for [__proto__]; else a field of the record that
    is the prototype, if there is one with that name; else a method of
    [Object.prototype]; else nothing ([undefined]). *)
Definition inherited (c : cache) (k : string) : option value :=
  if String.eqb k "__proto__" then
    Some match proto c with
         | Some d => VRecord d
         | None => VObjectPrototype
         end
  else
    match proto c ≫= (fun d => field d k) with
    | Some v => Some v
    | None =>
        if bool_decide (k ∈ object_prototype_names) then Some (VBuiltin k)
        else None
    end.

(** [movieDetailsCache[k]] *)
Definition read (c : cache) (k : string) : option value :=
  match own c !! k with
  | Some d => Some (VRecord d)
  | None => inherited c k
  end.

(** [movieDetailsCache[movieId] || null].  The cache is returned next to
    the result, to make what the operation leaves behind explicit. *)
Definition getFromCache (movieId : string) (c : cache)
  : option value * cache :=
  (match read c movieId with
   | Some v => if truthy v then Some v else None
   | None => None
   end, c).

(** [movieDetailsCache[movieId] = details]: an own property of that name
    gets the new value; if there is none, the name [__proto__] reaches the
    accessor of [Object.prototype], which makes [details] the prototype,
    and every other name becomes a new own property. *)
Definition addToCache (movieId : string) (details : IMovieDetails)
    (c : cache) : cache :=
  if String.eqb movieId "__proto__"
     && negb (bool_decide (is_Some (own c !! movieId)))
  then {| own := own c; proto := Some details |}
  else {| own := <[movieId := details]> (own c); proto := proto c |}.

(** [delete movieDetailsCache[movieId]]: an own property is removed;
    nothing else is. *)
Definition removeFromCache (movieId : string) (c : cache) : cache :=
  {| own := delete movieId (own c); proto := proto c |}.

(** [Object.keys(cache).forEach(key => delete cache[key])]: the keys are
    the names of the own properties. *)
Definition clearCache (c : cache) : cache :=
  foldr removeFromCache c (map_to_list (own c)).*1.

End Cache.

(** ** useMovieDetails.ts *)

Module Details.

(** The arguments of one [omdbService.getDetails(id, signal)] call. *)
Record request := {
  rq_id : string;
  rq_controller : nat
}.

Inductive failure :=
| Cancelled          (* axios.isCancel(err) *)
| OtherFailure.

Inductive outcome :=
| Resolved (response : IMovieDetails)
| Rejected (err : failure).

(** The three [useState] cells and the ref of one hook instance, then its
    surroundings: controllers created and aborted, the requests handed
    to the service, and the module-level [movieDetailsCache] whose
    [getFromCache] and [addToCache] the hook has in scope. *)
Record state := {
  details : option IMovieDetails;
  loading : bool;
  error : option string;
  abortControllerRef : option nat;
  controllers : nat;
  aborted : list nat;
  requests : list request;
  cache : Cache.cache
}.

Definition set_details (v : option IMovieDetails) (s : state) : state :=
  {| details := v; loading := loading s; error := error s;
     abortControllerRef := abortControllerRef s;
     controllers := controllers s; aborted := aborted s;
     requests := requests s; cache := cache s |}.

Definition set_loading (v : bool) (s : state) : state :=
  {| details := details s; loading := v; error := error s;
     abortControllerRef := abortControllerRef s;
     controllers := controllers s; aborted := aborted s;
     requests := requests s; cache := cache s |}.

Definition set_error (v : option string) (s : state) : state :=
  {| details := details s; loading := loading s; error := v;
     abortControllerRef := abortControllerRef s;
     controllers := controllers s; aborted := aborted s;
     requests := requests s; cache := cache s |}.

Definition set_abortControllerRef (v : option nat) (s : state) : state :=
  {| details := details s; loading := loading s; error := error s;
     abortControllerRef := v; controllers := controllers s;
     aborted := aborted s; requests := requests s; cache := cache s |}.

Definition set_controllers (v : nat) (s : state) : state :=
  {| details := details s; loading := loading s; error := error s;
     abortControllerRef := abortControllerRef s; controllers := v;
     aborted := aborted s; requests := requests s; cache := cache s |}.

Definition set_aborted (v : list nat) (s : state) : state :=
  {| details := details s; loading := loading s; error := error s;
     abortControllerRef := abortControllerRef s;
     controllers := controllers s; aborted := v; requests := requests s;
     cache := cache s |}.

Definition set_requests (v : list request) (s : state) : state :=
  {| details := details s; loading := loading s; error := error s;
     abortControllerRef := abortControllerRef s;
     controllers := controllers s; aborted := aborted s; requests := v;
     cache := cache s |}.

Definition set_cache (v : Cache.cache) (s : state) : state :=
  {| details := details s; loading := loading s; error := error s;
     abortControllerRef := abortControllerRef s;
     controllers := controllers s; aborted := aborted s;
     requests := requests s; cache := v |}.

Definition initial (c : Cache.cache) : state :=
  {| details := None; loading := false; error := None;
     abortControllerRef := None; controllers := 0; aborted := [];
     requests := []; cache := c |}.

Definition rate_limit_message : string :=
  "API rate limit reached. Please try again later.".
Definition fallback_message : string := "Failed to fetch movie details".
Definition generic_message : string :=
  "Failed to fetch movie details. Please try again.".
Definition request_limit_reached : string := "Request limit reached!".

Definition abort_current (s : state) : state :=
  match abortControllerRef s with
  | Some c => set_aborted (c :: aborted s) s
  | None => s
  end.

Definition is_current (rq : request) (s : state) : bool :=
  bool_decide (abortControllerRef s = Some (rq_controller rq)).

(** [fetchDetails] up to its [await]. *)
Definition fetchDetails (id : string) (s : state) : state * option request :=
  if negb (JS.truthy id) then (s, None)
  else
    let s := abort_current s in
    let abortController := controllers s in
    let s := set_controllers (S abortController) s in
    let s := set_abortControllerRef (Some abortController) s in
    let s := set_loading true s in
    let s := set_error None s in
    let rq := {| rq_id := id; rq_controller := abortController |} in
    (set_requests (requests s ++ [rq])%list s, Some rq).

Definition on_response (rq : request) (response : IMovieDetails)
    (s : state) : state :=
  if is_current rq s then
    if String.eqb (d_Response response) "False" then
      let s :=
        if bool_decide (d_Error response = Some request_limit_reached)
        then set_error (Some rate_limit_message) s
        else set_error
               (Some (JS.or_else (d_Error response) fallback_message)) s in
      set_details None s
    else set_details (Some response) s
  else s.

Definition on_failure (rq : request) (err : failure) (s : state) : state :=
  match err with
  | Cancelled => s
  | OtherFailure =>
      if is_current rq s
      then set_details None (set_error (Some generic_message) s)
      else s
  end.

Definition finally (rq : request) (s : state) : state :=
  if is_current rq s then set_loading false s else s.

(** [fetchDetails] from its [await] on. *)
Definition fetchDetails_settled (rq : request) (o : outcome) (s : state)
  : state :=
  finally rq
    match o with
    | Resolved response => on_response rq response s
    | Rejected err => on_failure rq err s
    end.

Definition cleanup (s : state) : state := abort_current s.

(** The body of the effect on [[movieId, fetchDetails]]. *)
Definition effect (movieId : option string) (s : state) : state :=
  match movieId with
  | Some id =>
      if JS.truthy id then (fetchDetails id s).1
      else set_error None (set_details None s)
  | None => set_error None (set_details None s)
  end.

(** The hook is rendered with a different [movieId]. *)
Definition show (movieId : option string) (s : state) : state :=
  effect movieId (cleanup s).

(** A render of the hook with [next] as its [movieId], after a render
    with [prev]: the effect depends on [[movieId, fetchDetails]] and
    [fetchDetails] never changes, so the cleanup and the effect run only
    when the [movieId] differs. *)
Definition render (prev next : option string) (s : state) : state :=
  if bool_decide (prev = next) then s else show next s.

(** What can happen to one instance of the hook: it is rendered with
    another [movieId] (the cleanup of the previous effect runs, then the
    effect), the promise of a request settles, the component goes away. *)
Inductive event :=
| Show (movieId : option string)
| Settle (rq : request) (o : outcome)
| Unmount.

Definition step (e : event) (s : state) : state :=
  match e with
  | Show movieId => show movieId s
  | Settle rq o => fetchDetails_settled rq o s
  | Unmount => cleanup s
  end.

Definition run (es : list event) (s : state) : state :=
  foldl (fun s e => step e s) s es.

(** [newer c s]: the call that is current in [s] was started after the
    one that created controller [c]. *)
Definition newer (c : nat) (s : state) : Prop :=
  ∃ c', abortControllerRef s = Some c' ∧ (c < c')%nat
        ∧ (c' < controllers s)%nat.

(** [tracked s]: every request sent so far either belongs to the call that
    is current or has been aborted. *)
Definition tracked (s : state) : Prop :=
  ∀ rq, rq ∈ requests s →
        rq_controller rq ∈ aborted s
        ∨ abortControllerRef s = Some (rq_controller rq).

End Details.

(** ** useDebouncedSearch.ts *)

Module Search.

(** The arguments of one [omdbService.search(query, page, signal)] call;
    the signal is named by the controller it belongs to. *)
Record request := {
  rq_query : string;
  rq_page : Z;
  rq_controller : nat
}.

(** What the hook reads of a rejected promise: [err.response?.status]
    and [err.response?.data?.Error]. *)
Record http_response := {
  status : Z;
  data_Error : option string
}.

Inductive failure :=
| Cancelled                                       (* axios.isCancel(err) *)
| AxiosFailure (response : option http_response)  (* axios.isAxiosError(err) *)
| OtherFailure.

Inductive outcome :=
| Resolved (response : IMovieSearchResponse)
| Rejected (err : failure).

(** The six [useState] cells, the two refs, and the surroundings of the
    hook: the controllers created so far (the next one gets the number
    [controllers]), the controllers aborted so far, the requests handed
    to the service, the invocations of [searchMovies], the single slot of
    the debounce timer (last argument and due time) and the clock in
    milliseconds. *)
Record state := {
  query : string;
  results : option IMovieSearchResponse;
  loading : bool;
  error : option string;
  page : Z;
  hasMore : bool;
  abortControllerRef : option nat;
  isInitialLoad : bool;
  controllers : nat;
  aborted : list nat;
  requests : list request;
  calls : list (string * Z);
  timer : option (string * N);
  now : N
}.

Definition set_query (v : string) (s : state) : state :=
  {| query := v; results := results s; loading := loading s;
     error := error s; page := page s; hasMore := hasMore s;
     abortControllerRef := abortControllerRef s;
     isInitialLoad := isInitialLoad s; controllers := controllers s;
     aborted := aborted s; requests := requests s; calls := calls s;
     timer := timer s; now := now s |}.

Definition set_results (v : option IMovieSearchResponse) (s : state) : state :=
  {| query := query s; results := v; loading := loading s;
     error := error s; page := page s; hasMore := hasMore s;
     abortControllerRef := abortControllerRef s;
     isInitialLoad := isInitialLoad s; controllers := controllers s;
     aborted := aborted s; requests := requests s; calls := calls s;
     timer := timer s; now := now s |}.

Definition set_loading (v : bool) (s : state) : state :=
  {| query := query s; results := results s; loading := v;
     error := error s; page := page s; hasMore := hasMore s;
     abortControllerRef := abortControllerRef s;
     isInitialLoad := isInitialLoad s; controllers := controllers s;
     aborted := aborted s; requests := requests s; calls := calls s;
     timer := timer s; now := now s |}.

Definition set_error (v : option string) (s : state) : state :=
  {| query := query s; results := results s; loading := loading s;
     error := v; page := page s; hasMore := hasMore s;
     abortControllerRef := abortControllerRef s;
     isInitialLoad := isInitialLoad s; controllers := controllers s;
     aborted := aborted s; requests := requests s; calls := calls s;
     timer := timer s; now := now s |}.

Definition set_page (v : Z) (s : state) : state :=
  {| query := query s; results := results s; loading := loading s;
     error := error s; page := v; hasMore := hasMore s;
     abortControllerRef := abortControllerRef s;
     isInitialLoad := isInitialLoad s; controllers := controllers s;
     aborted := aborted s; requests := requests s; calls := calls s;
     timer := timer s; now := now s |}.

Definition set_hasMore (v : bool) (s : state) : state :=
  {| query := query s; results := results s; loading := loading s;
     error := error s; page := page s; hasMore := v;
     abortControllerRef := abortControllerRef s;
     isInitialLoad := isInitialLoad s; controllers := controllers s;
     aborted := aborted s; requests := requests s; calls := calls s;
     timer := timer s; now := now s |}.

Definition set_abortControllerRef (v : option nat) (s : state) : state :=
  {| query := query s; results := results s; loading := loading s;
     error := error s; page := page s; hasMore := hasMore s;
     abortControllerRef := v; isInitialLoad := isInitialLoad s;
     controllers := controllers s; aborted := aborted s;
     requests := requests s; calls := calls s; timer := timer s;
     now := now s |}.

Definition set_isInitialLoad (v : bool) (s : state) : state :=
  {| query := query s; results := results s; loading := loading s;
     error := error s; page := page s; hasMore := hasMore s;
     abortControllerRef := abortControllerRef s; isInitialLoad := v;
     controllers := controllers s; aborted := aborted s;
     requests := requests s; calls := calls s; timer := timer s;
     now := now s |}.

Definition set_controllers (v : nat) (s : state) : state :=
  {| query := query s; results := results s; loading := loading s;
     error := error s; page := page s; hasMore := hasMore s;
     abortControllerRef := abortControllerRef s;
     isInitialLoad := isInitialLoad s; controllers := v;
     aborted := aborted s; requests := requests s; calls := calls s;
     timer := timer s; now := now s |}.

Definition set_aborted (v : list nat) (s : state) : state :=
  {| query := query s; results := results s; loading := loading s;
     error := error s; page := page s; hasMore := hasMore s;
     abortControllerRef := abortControllerRef s;
     isInitialLoad := isInitialLoad s; controllers := controllers s;
     aborted := v; requests := requests s; calls := calls s;
     timer := timer s; now := now s |}.

Definition set_requests (v : list request) (s : state) : state :=
  {| query := query s; results := results s; loading := loading s;
     error := error s; page := page s; hasMore := hasMore s;
     abortControllerRef := abortControllerRef s;
     isInitialLoad := isInitialLoad s; controllers := controllers s;
     aborted := aborted s; requests := v; calls := calls s;
     timer := timer s; now := now s |}.

Definition set_calls (v : list (string * Z)) (s : state) : state :=
  {| query := query s; results := results s; loading := loading s;
     error := error s; page := page s; hasMore := hasMore s;
     abortControllerRef := abortControllerRef s;
     isInitialLoad := isInitialLoad s; controllers := controllers s;
     aborted := aborted s; requests := requests s; calls := v;
     timer := timer s; now := now s |}.

Definition set_timer (v : option (string * N)) (s : state) : state :=
  {| query := query s; results := results s; loading := loading s;
     error := error s; page := page s; hasMore := hasMore s;
     abortControllerRef := abortControllerRef s;
     isInitialLoad := isInitialLoad s; controllers := controllers s;
     aborted := aborted s; requests := requests s; calls := calls s;
     timer := v; now := now s |}.

Definition set_now (v : N) (s : state) : state :=
  {| query := query s; results := results s; loading := loading s;
     error := error s; page := page s; hasMore := hasMore s;
     abortControllerRef := abortControllerRef s;
     isInitialLoad := isInitialLoad s; controllers := controllers s;
     aborted := aborted s; requests := requests s; calls := calls s;
     timer := timer s; now := v |}.

(** The state of a freshly mounted hook. *)
Definition initial : state :=
  {| query := ""; results := None; loading := false; error := None;
     page := 1; hasMore := false; abortControllerRef := None;
     isInitialLoad := true; controllers := 0; aborted := [];
     requests := []; calls := []; timer := None; now := 0 |}.

Definition rate_limit_message : string :=
  "API rate limit reached. Please try again later.".
Definition no_results_message : string := "No results found".
Definition credentials_message : string :=
  "API key is invalid or missing. Please contact support.".
Definition generic_message : string :=
  "Failed to fetch movies. Please try again.".
Definition request_limit_reached : string := "Request limit reached!".

(** [prev?.Search || []] *)
Definition records (prev : option IMovieSearchResponse) : list IMovie :=
  match prev with
  | Some r => default [] (Search r)
  | None => []
  end.

(** [{ ...response,
       Search: [...(prev?.Search || []), ...(response.Search || [])] }] *)
Definition append_page (prev : option IMovieSearchResponse)
    (response : IMovieSearchResponse) : IMovieSearchResponse :=
  {| Search := Some (records prev ++ default [] (Search response))%list;
     totalResults := totalResults response;
     Response := Response response;
     Error := Error response |}.

(** [!!response.Search?.length] *)
Definition has_records (response : IMovieSearchResponse) : bool :=
  match Search response with
  | Some l => negb (length l =? 0)%nat
  | None => false
  end.

(** [if (abortControllerRef.current) abortControllerRef.current.abort()] *)
Definition abort_current (s : state) : state :=
  match abortControllerRef s with
  | Some c => set_aborted (c :: aborted s) s
  | None => s
  end.

(** [abortControllerRef.current === abortController], for the controller
    the call created. *)
Definition is_current (rq : request) (s : state) : bool :=
  bool_decide (abortControllerRef s = Some (rq_controller rq)).

(** [searchMovies] up to its [await]: the state it leaves and the request
    it is waiting for, if it issued one. *)
Definition searchMovies (searchQuery : string) (pageNum : Z) (s : state)
  : state * option request :=
  let s := set_calls (calls s ++ [(searchQuery, pageNum)])%list s in
  if JS.blank searchQuery then
    (set_hasMore false (set_results None s), None)
  else
    let s := abort_current s in
    let abortController := controllers s in
    let s := set_controllers (S abortController) s in
    let s := set_abortControllerRef (Some abortController) s in
    let s := set_loading true s in
    let s := set_error None s in
    let rq := {| rq_query := searchQuery; rq_page := pageNum;
                 rq_controller := abortController |} in
    (set_requests (requests s ++ [rq])%list s, Some rq).

(** The [try] block after the [await]. *)
Definition on_response (rq : request) (response : IMovieSearchResponse)
    (s : state) : state :=
  if is_current rq s then
    if String.eqb (Response response) "False" then
      let s :=
        if bool_decide (Error response = Some request_limit_reached)
        then set_error (Some rate_limit_message) s
        else set_error
               (Some (JS.or_else (Error response) no_results_message)) s in
      set_hasMore false (set_results None s)
    else
      let s :=
        if (rq_page rq =? 1)%Z
        then set_isInitialLoad false (set_results (Some response) s)
        else set_results (Some (append_page (results s) response)) s in
      let totalResults := JS.parseInt (totalResults response) in
      set_hasMore
        (has_records response && JS.gt totalResults (rq_page rq * 10)) s
  else s.

(** The [catch] block. *)
Definition on_failure (rq : request) (err : failure) (s : state) : state :=
  match err with
  | Cancelled => s
  | _ =>
      if is_current rq s then
        let s :=
          match err with
          | AxiosFailure response =>
              if JS.truthy_opt (response ≫= data_Error)
              then set_error (response ≫= data_Error) s
              else if bool_decide (status <$> response = Some 401%Z)
              then set_error (Some credentials_message) s
              else if bool_decide (status <$> response = Some 429%Z)
              then set_error (Some rate_limit_message) s
              else set_error (Some generic_message) s
          | _ => set_error (Some generic_message) s
          end in
        set_hasMore false (set_results None s)
      else s
  end.

(** The [finally] block. *)
Definition finally (rq : request) (s : state) : state :=
  if is_current rq s then set_loading false s else s.

(** [searchMovies] from its [await] on, once the promise of [rq] has
    settled with [o]. *)
Definition searchMovies_settled (rq : request) (o : outcome) (s : state)
  : state :=
  finally rq
    match o with
    | Resolved response => on_response rq response s
    | Rejected err => on_failure rq err s
    end.

Definition debouncedSearch (searchQuery : string) (s : state) : state :=
  let s := set_page 1 s in
  let s := set_hasMore false s in
  let s := set_isInitialLoad true s in
  (searchMovies searchQuery 1 s).1.

Definition loadMore (s : state) : state :=
  if negb (loading s) && hasMore s && JS.truthy (query s)
     && negb (isInitialLoad s)
  then
    let nextPage := (page s + 1)%Z in
    (searchMovies (query s) nextPage (set_page nextPage s)).1
  else s.

(** The cleanup function the effect returns; it runs before the effect
    runs again and when the component goes away. *)
Definition cleanup (s : state) : state := abort_current s.

Definition unmount (s : state) : state := cleanup s.

Definition default_delay : N := 300.

Section Debounce.

(** The [delay] argument of the hook, in milliseconds. *)
Variable delay : N.

(** [debounce(debouncedSearch, delay)] called with [searchQuery]:
    lodash keeps the last argument and restarts its timer, which is due
    [delay] after this call; nothing runs on the leading edge. *)
Definition debouncedSearchFn (searchQuery : string) (s : state) : state :=
  set_timer (Some (searchQuery, (now s + delay)%N)) s.

(** The body of the effect on [[query, debouncedSearchFn]]. *)
Definition effect (s : state) : state :=
  if JS.truthy (query s) then debouncedSearchFn (query s) s
  else
    let s := set_results None s in
    let s := set_page 1 s in
    let s := set_hasMore false s in
    set_isInitialLoad true s.

(** [setQuery(text)]: the state cell is replaced and, because [query]
    is a dependency of the effect, the previous cleanup and then the
    effect run.  Setting the value the cell already has changes no
    dependency, so nothing runs. *)
Definition setQuery (text : string) (s : state) : state :=
  if String.eqb text (query s) then s
  else effect (cleanup (set_query text s)).

End Debounce.

(** [dt] milliseconds pass: the pending debounce timer fires if it has
    become due. *)
Definition advance (dt : N) (s : state) : state :=
  let s := set_now (now s + dt)%N s in
  match timer s with
  | Some (searchQuery, due) =>
      if (due <=? now s)%N then debouncedSearch searchQuery (set_timer None s)
      else s
  | None => s
  end.

(** What can happen to a mounted hook: the user types, time passes, the
    list asks for more, the promise of a request settles, the component
    goes away. *)
Inductive event :=
| SetQuery (text : string)
| Advance (dt : N)
| LoadMore
| Settle (rq : request) (o : outcome)
| Unmount.

Definition step (delay : N) (e : event) (s : state) : state :=
  match e with
  | SetQuery text => setQuery delay text s
  | Advance dt => advance dt s
  | LoadMore => loadMore s
  | Settle rq o => searchMovies_settled rq o s
  | Unmount => unmount s
  end.

Definition run (delay : N) (es : list event) (s : state) : state :=
  foldl (fun s e => step delay e s) s es.

(** A burst of typing: each pair is a pause followed by the text the
    input then holds. *)
Definition typing (b : list (N * string)) : list event :=
  b ≫= (fun '(dt, text) => [Advance dt; SetQuery text]).

(** Every pause of the burst is shorter than [delay], and every text is
    non-empty and differs from the one before it ([prev] at first). *)
Fixpoint within_window (delay : N) (prev : string) (b : list (N * string))
  : bool :=
  match b with
  | [] => true
  | (dt, text) :: b' =>
      (dt <? delay)%N && JS.truthy text && negb (String.eqb text prev)
      && within_window delay text b'
  end.

(** The text the input holds at the end of a burst that started from
    [prev]. *)
Fixpoint final_text (prev : string) (b : list (N * string)) : string :=
  match b with
  | [] => prev
  | (_, text) :: b' => final_text text b'
  end.

(** A rejection by the transport with HTTP status 401 and a response body
    whose [Error] field is [body]. *)
Definition unauthorized (body : option string) : outcome :=
  Rejected (AxiosFailure (Some {| status := 401; data_Error := body |})).

(** [tracked s]: every request handed to the service so far either belongs
    to the call that is current or has been aborted, so at most one request
    is outstanding. *)
Definition tracked (s : state) : Prop :=
  ∀ rq, rq ∈ requests s →
        rq_controller rq ∈ aborted s
        ∨ abortControllerRef s = Some (rq_controller rq).

(** [armed delay q s]: the query is [q], and the debounce timer is
    pending for [q] and due [delay] from now. *)
Definition armed (delay : N) (q : string) (s : state) : Prop :=
  query s = q ∧ timer s = Some (q, (now s + delay)%N).

(** [newer c s]: the call that is current in [s] was started after the
    one that created controller [c]. *)
Definition newer (c : nat) (s : state) : Prop :=
  ∃ c', abortControllerRef s = Some c' ∧ (c < c')%nat
        ∧ (c' < controllers s)%nat.

(** Invariants of the states of a mounted hook. *)

(** The page counter and the page of every request are at least 1. *)
Definition pages_positive (s : state) : Prop :=
  (1 ≤ page s)%Z ∧ ∀ rq, rq ∈ requests s → (1 ≤ rq_page rq)%Z.

(** Controllers are handed out in increasing order: the one in the ref
    and those of the requests are below the next number, and no two
    requests share one. *)
Definition controllers_fresh (s : state) : Prop :=
  (∀ c, abortControllerRef s = Some c → (c < controllers s)%nat)
  ∧ (∀ rq, rq ∈ requests s → (rq_controller rq < controllers s)%nat)
  ∧ NoDup (rq_controller <$> requests s).

(** A kept result is never a [Response: "False"] body, and has-more is on
    only while there are records. *)
Definition results_sound (s : state) : Prop :=
  (∀ r, results s = Some r → Response r ≠ "False")
  ∧ (hasMore s = true → records (results s) ≠ []).

End Search.

(** ** MovieSearch.tsx: what the component derives from the hook *)

Module MovieSearch.

(** [results?.Search], the test of [movieList]: the list is rendered
    whenever the field is there, an empty array included. *)
Definition movieList (s : Search.state) : option (list IMovie) :=
  Search.results s ≫= Search.

(** [!loading && query && results && results.Response === "False" &&
     (!results.Search || results.Search.length === 0) && !movieList] *)
Definition showNoResults (s : Search.state) : bool :=
  negb (Search.loading s) && JS.truthy (Search.query s)
  && match Search.results s with
     | Some r =>
         String.eqb (Response r) "False"
         && match Search r with
            | Some l => (length l =? 0)%nat
            | None => true
            end
     | None => false
     end
  && negb (bool_decide (is_Some (movieList s))).

(** [{hasMore && <div ref={loadMoreRef} ... />}] *)
Definition showSentinel (s : Search.state) : bool := Search.hasMore s.

(** [loading && hasMore && results?.Search && results.Search.length > 0] *)
Definition showLoadingMore (s : Search.state) : bool :=
  Search.loading s && Search.hasMore s
  && match movieList s with
     | Some l => negb (length l =? 0)%nat
     | None => false
     end.

(** [{error && <div className={styles.error}>{error}</div>}] *)
Definition errorBanner (s : Search.state) : option string :=
  match Search.error s with
  | Some e => if JS.truthy e then Some e else None
  | None => None
  end.

End MovieSearch.

(** ** MovieCard.tsx *)

Module MovieCard.

(** The props and cells of one card: the [movie] it shows, [isHovered],
    [imageError], the pending leave timeout (its due time), the clock, and
    the state of the [useMovieDetails] instance the card owns. *)
Record state := {
  movie : IMovie;
  isHovered : bool;
  imageError : bool;
  hoverTimeoutRef : option N;
  now : N;
  hook : Details.state
}.

Definition mount (m : IMovie) (c : Cache.cache) : state :=
  {| movie := m; isHovered := false; imageError := false;
     hoverTimeoutRef := None; now := 0; hook := Details.initial c |}.

(** [isHovered ? movie.imdbID : null], the argument of the hook. *)
Definition movieId (m : IMovie) (hovered : bool) : option string :=
  if hovered then Some (imdbID m) else None.

(** [setIsHovered(b)]: a different value re-renders the card, the hook
    sees another [movieId] and its effect runs; the same value changes
    nothing. *)
Definition setIsHovered (b : bool) (s : state) : state :=
  if Bool.eqb b (isHovered s) then s
  else
    {| movie := movie s; isHovered := b; imageError := imageError s;
       hoverTimeoutRef := hoverTimeoutRef s; now := now s;
       hook := Details.show (movieId (movie s) b) (hook s) |}.

Definition set_hoverTimeoutRef (v : option N) (s : state) : state :=
  {| movie := movie s; isHovered := isHovered s;
     imageError := imageError s; hoverTimeoutRef := v; now := now s;
     hook := hook s |}.

(** The pending timeout, if any, is cleared; the card is hovered at once. *)
Definition handleMouseEnter (s : state) : state :=
  setIsHovered true (set_hoverTimeoutRef None s).

(** The pending timeout, if any, is cleared and a new one is set, due in
    100 ms. *)
Definition handleMouseLeave (s : state) : state :=
  set_hoverTimeoutRef (Some (now s + 100)%N) s.

Definition handleImageError (s : state) : state :=
  {| movie := movie s; isHovered := isHovered s; imageError := true;
     hoverTimeoutRef := hoverTimeoutRef s; now := now s; hook := hook s |}.

(** [dt] milliseconds pass: the leave timeout runs if it has become due. *)
Definition advance (dt : N) (s : state) : state :=
  let s :=
    {| movie := movie s; isHovered := isHovered s;
       imageError := imageError s; hoverTimeoutRef := hoverTimeoutRef s;
       now := (now s + dt)%N; hook := hook s |} in
  match hoverTimeoutRef s with
  | Some due =>
      if (due <=? now s)%N
      then set_hoverTimeoutRef None (setIsHovered false s)
      else s
  | None => s
  end.

(** The promise of a request of the card's hook settles. *)
Definition settle (rq : Details.request) (o : Details.outcome) (s : state)
  : state :=
  {| movie := movie s; isHovered := isHovered s;
     imageError := imageError s; hoverTimeoutRef := hoverTimeoutRef s;
     now := now s; hook := Details.fetchDetails_settled rq o (hook s) |}.

Inductive event :=
| MouseEnter
| MouseLeave
| Advance (dt : N)
| ImageError
| Settle (rq : Details.request) (o : Details.outcome).

Definition step (e : event) (s : state) : state :=
  match e with
  | MouseEnter => handleMouseEnter s
  | MouseLeave => handleMouseLeave s
  | Advance dt => advance dt s
  | ImageError => handleImageError s
  | Settle rq o => settle rq o s
  end.

Definition run (es : list event) (s : state) : state :=
  foldl (fun s e => step e s) s es.

(** What [tooltipContent] renders. *)
Inductive tooltip :=
| NoTooltip                           (* null *)
| LoadingText                         (* "Loading..." *)
| ErrorText (e : string)
| DetailsTooltip (d : IMovieDetails)  (* <MovieTooltip movie={details} /> *)
| EmptyContainer.

Definition tooltipContent (s : state) : tooltip :=
  if negb (isHovered s) then NoTooltip
  else if Details.loading (hook s) then LoadingText
  else
    match Details.error (hook s) with
    | Some e =>
        if JS.truthy e then ErrorText e
        else match Details.details (hook s) with
             | Some d => DetailsTooltip d
             | None => EmptyContainer
             end
    | None =>
        match Details.details (hook s) with
        | Some d => DetailsTooltip d
        | None => EmptyContainer
        end
    end.

(** [movie.Poster !== 'N/A' && !imageError]: the image is rendered,
    otherwise the placeholder. *)
Definition showsPoster (s : state) : bool :=
  negb (String.eqb (Poster (movie s)) "N/A") && negb (imageError s).

End MovieCard.

(** ** MovieTooltip.tsx: the list of directors

    The star rating of the tooltip is computed with [parseFloat] on
    doubles and is not modelled. *)

Module MovieTooltip.

(** [s.split(',')]: the pieces between the commas; a string without a
    comma, the empty one included, is its own single piece. *)
Fixpoint split_comma (s : string) : list string :=
  match s with
  | EmptyString => [EmptyString]
  | String c r =>
      if Ascii.eqb c "," then EmptyString :: split_comma r
      else match split_comma r with
           | piece :: pieces => String c piece :: pieces
           | [] => [String c EmptyString]
           end
  end.

(** The white space at the end of a string removed. *)
Fixpoint trim_end (s : string) : string :=
  match s with
  | EmptyString => EmptyString
  | String c r =>
      match trim_end r with
      | EmptyString => if JS.is_ws c then EmptyString else String c EmptyString
      | r' => String c r'
      end
  end.

(** [s.trim()], for the white space of the ASCII range. *)
Definition trim (s : string) : string := trim_end (JS.skip_ws s).

(** [movie.Director.split(',').map(director => director.trim())], the
    text of the paragraphs rendered. *)
Definition directors (movie : IMovieDetails) : list string :=
  trim <$> split_comma (Director movie).

Fixpoint commas (s : string) : nat :=
  match s with
  | EmptyString => 0
  | String c r => (if Ascii.eqb c "," then 1 else 0) + commas r
  end.

Definition starts_with_ws (s : string) : bool :=
  match s with
  | EmptyString => false
  | String c _ => JS.is_ws c
  end.

Fixpoint ends_with_ws (s : string) : bool :=
  match s with
  | EmptyString => false
  | String c EmptyString => JS.is_ws c
  | String _ r => ends_with_ws r
  end.

End MovieTooltip.

(** ** Sample data used to run the model *)

Module Sample.

Definition movie (id title : string) : IMovie :=
  {| imdbID := id; Title := title; Year := "2005"; Type_ := "movie";
     Poster := "N/A" |}.

Definition batman_begins : IMovieDetails :=
  {| d_imdbID := "tt0372784"; d_Title := "Batman Begins"; d_Year := "2005";
     d_Type := "movie"; d_Poster := "N/A"; Rated := "PG-13";
     Released := "15 Jun 2005"; Runtime := "140 min";
     Genre := "Action, Crime, Drama"; Director := "Christopher Nolan";
     Writer := "Bob Kane, David S. Goyer, Christopher Nolan";
     Actors := "Christian Bale, Michael Caine, Ken Watanabe";
     Plot := "Bruce Wayne becomes Batman."; Language := "English";
     Country := "United States"; Awards := "N/A";
     Ratings := [{| Source := "Internet Movie Database";
                    Value := "8.2/10" |}];
     Metascore := "70"; imdbRating := "8.2"; imdbVotes := "1,500,000";
     DVD := "N/A"; BoxOffice := "N/A"; Production := "N/A";
     Website := "N/A"; d_Response := "True"; d_Error := None |}.

Definition page_of (ms : list IMovie) (total : string)
  : IMovieSearchResponse :=
  {| Search := Some ms; totalResults := total; Response := "True";
     Error := None |}.


(** A cache that already holds the record of "tt0372784". *)
Definition warm_cache : Cache.cache :=
  Cache.addToCache "tt0372784" batman_begins Cache.empty.

Definition first_page : IMovieSearchResponse :=
  page_of [movie "tt0372784" "Batman Begins";
           movie "tt0468569" "The Dark Knight"] "12".

Definition second_page : IMovieSearchResponse :=
  page_of [movie "tt1345836" "The Dark Knight Rises"] "12".

(** The hook after "batman" has been typed and the debounce timer has
    fired: request [batman_request] is in flight. *)
Definition waiting : Search.state :=
  Search.run 300 [Search.SetQuery "batman"; Search.Advance 300]
             Search.initial.

Definition batman_request : Search.request :=
  {| Search.rq_query := "batman"; Search.rq_page := 1;
     Search.rq_controller := 0 |}.

(** The first page has arrived. *)
Definition loaded : Search.state :=
  Search.searchMovies_settled batman_request (Search.Resolved first_page)
                              waiting.

(** The whole session up to the moment [loadMore] has asked for the
    second page. *)
Definition session : list Search.event :=
  [Search.SetQuery "batman"; Search.Advance 300;
   Search.Settle batman_request (Search.Resolved first_page);
   Search.LoadMore].

Definition waiting_for_more : Search.state :=
  Search.run 300 session Search.initial.

Definition more_request : Search.request :=
  {| Search.rq_query := "batman"; Search.rq_page := 2;
     Search.rq_controller := 1 |}.

End Sample.

(** * Properties *)

(** ** The result cache *)

Section CacheProperties.

Implicit Types (c : Cache.cache) (k : string) (r : IMovieDetails).

Lemma foldr_remove_own (ks : list string) c :
  Cache.own (foldr Cache.removeFromCache c ks)
  = foldr (fun key acc => delete key acc) (Cache.own c) ks
  ∧ Cache.proto (foldr Cache.removeFromCache c ks) = Cache.proto c.
Proof.
  induction ks as [|k0 ks [IHo IHp]]; [done |]. cbn. by rewrite IHo, IHp.
Qed.

Lemma foldr_delete_lookup (ks : list string)
    (m : gmap string IMovieDetails) (k : string) :
  foldr (fun key acc => delete key acc) m ks !! k
  = if bool_decide (k ∈ ks) then None else m !! k.
Proof.
  induction ks as [|k0 ks IH]; cbn [foldr].
  - case_bool_decide; [set_solver | reflexivity].
  - destruct (decide (k0 = k)) as [->|Hne].
    + rewrite lookup_delete_eq.
      rewrite (bool_decide_eq_true_2 (k ∈ k :: ks)); [done |].
      apply elem_of_cons. by left.
    + rewrite lookup_delete_ne, IH by done.
      apply (f_equal (fun b : bool => if b then None else m !! k)).
      apply bool_decide_ext. rewrite elem_of_cons. intuition congruence.
Qed.

Lemma clearCache_empty c :
  Cache.clearCache c = {| Cache.own := ∅; Cache.proto := Cache.proto c |}.
Proof.
  unfold Cache.clearCache.
  destruct (foldr_remove_own (map_to_list (Cache.own c)).*1 c) as [Ho Hp].
  destruct (foldr Cache.removeFromCache c (map_to_list (Cache.own c)).*1)
    as [o p] eqn:Hc. cbn in Ho, Hp. subst o p. f_equal.
  apply map_eq. intros k. rewrite foldr_delete_lookup, lookup_empty.
  case_bool_decide as Hk; [done |].
  destruct (Cache.own c !! k) as [d|] eqn:E; [| done].
  exfalso. apply Hk. apply list_elem_of_fmap.
  exists (k, d). split; [done |]. by apply elem_of_map_to_list.
Qed.






End CacheProperties.

(** ** The detail fetcher *)

Section DetailsProperties.

Import Details.

Lemma fetchDetails_issues (id : string) (s : state) :
  JS.truthy id = true →
  fetchDetails id s
  = (set_requests
       (requests s
        ++ [{| rq_id := id; rq_controller := controllers s |}])%list
       (set_error None
          (set_loading true
             (set_abortControllerRef (Some (controllers s))
                (set_controllers (S (controllers s)) (abort_current s))))),
     Some {| rq_id := id; rq_controller := controllers s |}).
Proof.
  intros Hid. unfold fetchDetails. rewrite Hid. cbn [negb].
  unfold abort_current. by destruct (abortControllerRef s).
Qed.

Lemma fetchDetails_settled_False (rq : request) (d : IMovieDetails)
    (s : state) :
  is_current rq s = true →
  d_Response d = "False" →
  error (fetchDetails_settled rq (Resolved d) s)
    = Some (if bool_decide (d_Error d = Some request_limit_reached)
            then rate_limit_message
            else JS.or_else (d_Error d) fallback_message)
  ∧ details (fetchDetails_settled rq (Resolved d) s) = None.
Proof.
  intros Hcur HR.
  assert (on_response rq d s
          = set_details None
              (set_error
                 (Some (if bool_decide
                             (d_Error d = Some request_limit_reached)
                        then rate_limit_message
                        else JS.or_else (d_Error d) fallback_message)) s))
    as Hon.
  { unfold on_response. rewrite Hcur, HR. cbn [String.eqb].
    by case_bool_decide. }
  unfold fetchDetails_settled, finally. rewrite Hon.
  assert (is_current rq
            (set_details None
               (set_error
                  (Some (if bool_decide
                              (d_Error d = Some request_limit_reached)
                         then rate_limit_message
                         else JS.or_else (d_Error d) fallback_message)) s))
          = true) as -> by exact Hcur.
  done.
Qed.

(** C2 (the code departs from it).  With the record of "tt0372784" in
    the cache, [fetchDetails "tt0372784"] does not hand the cached record
    out: it leaves [details] empty, turns [loading] on and sends a
    request for that very key. *)
Example fetchDetails_ignores_cache :
  (Cache.getFromCache "tt0372784" Sample.warm_cache).1
    = Some (Cache.VRecord Sample.batman_begins)
  ∧ details (fetchDetails "tt0372784" (initial Sample.warm_cache)).1 = None
  ∧ loading (fetchDetails "tt0372784" (initial Sample.warm_cache)).1 = true
  ∧ requests (fetchDetails "tt0372784" (initial Sample.warm_cache)).1
    = [{| rq_id := "tt0372784"; rq_controller := 0 |}].
Proof.
  split; [by vm_compute |].
  rewrite fetchDetails_issues by reflexivity. by cbn.
Qed.

End DetailsProperties.

(** ** The search orchestrator *)

Section SearchProperties.

Import Search.

Implicit Types (s : state) (rq : request) (o : outcome) (delay : N).

(** *** What [searchMovies] does before it waits *)

Lemma searchMovies_blank (q : string) (p : Z) s :
  JS.blank q = true →
  searchMovies q p s
  = (set_hasMore false
       (set_results None (set_calls (calls s ++ [(q, p)])%list s)), None).
Proof. intros Hq. unfold searchMovies. by rewrite Hq. Qed.

Lemma searchMovies_issues (q : string) (p : Z) s :
  JS.blank q = false →
  let rq := {| rq_query := q; rq_page := p;
               rq_controller := controllers s |} in
  (searchMovies q p s).2 = Some rq
  ∧ abortControllerRef (searchMovies q p s).1 = Some (controllers s)
  ∧ controllers (searchMovies q p s).1 = S (controllers s)
  ∧ requests (searchMovies q p s).1 = (requests s ++ [rq])%list
  ∧ calls (searchMovies q p s).1 = (calls s ++ [(q, p)])%list
  ∧ loading (searchMovies q p s).1 = true
  ∧ error (searchMovies q p s).1 = None
  ∧ results (searchMovies q p s).1 = results s
  ∧ page (searchMovies q p s).1 = page s
  ∧ hasMore (searchMovies q p s).1 = hasMore s.
Proof.
  intros Hq rq. unfold searchMovies. rewrite Hq.
  subst rq. unfold abort_current.
  destruct s as [? ? ? ? ? ? ref ? ? ? ? ? ? ?]. cbn.
  destruct ref; repeat split.
Qed.

(** *** Completions of calls that are no longer current *)

Lemma on_response_ref rq (r : IMovieSearchResponse) s :
  abortControllerRef (on_response rq r s) = abortControllerRef s.
Proof. unfold on_response. by repeat case_match. Qed.

Lemma on_failure_ref rq (e : failure) s :
  abortControllerRef (on_failure rq e s) = abortControllerRef s.
Proof. unfold on_failure. by repeat case_match. Qed.

Lemma settled_stale rq o s :
  is_current rq s = false → searchMovies_settled rq o s = s.
Proof.
  intros Hst. unfold searchMovies_settled, finally.
  destruct o as [r|e].
  - unfold on_response. by rewrite !Hst.
  - unfold on_failure. destruct e; by rewrite ?Hst.
Qed.

Lemma settled_current rq o s :
  is_current rq s = true →
  searchMovies_settled rq o s
  = set_loading false
      match o with
      | Resolved r => on_response rq r s
      | Rejected e => on_failure rq e s
      end.
Proof.
  intros Hcur. unfold searchMovies_settled, finally.
  assert (is_current rq
            match o with
            | Resolved r => on_response rq r s
            | Rejected e => on_failure rq e s
            end = true) as ->; [| done].
  unfold is_current in *.
  destruct o; by rewrite ?on_response_ref, ?on_failure_ref.
Qed.

Lemma newer_not_current rq s :
  newer (rq_controller rq) s → is_current rq s = false.
Proof.
  intros (c' & Href & Hlt & _). unfold is_current.
  apply bool_decide_eq_false. rewrite Href. intros [= ->]. lia.
Qed.

Lemma newer_abort_current c s : newer c s → newer c (abort_current s).
Proof.
  intros (c' & Href & ?). exists c'. unfold abort_current.
  by rewrite Href.
Qed.

Lemma newer_searchMovies c (q : string) (p : Z) s :
  newer c s → newer c (searchMovies q p s).1.
Proof.
  intros (c' & Href & Hlt & Hlt'). destruct (JS.blank q) eqn:Hq.
  - rewrite searchMovies_blank by done. by exists c'.
  - destruct (searchMovies_issues q p s Hq) as (_ & Hr & Hc & _).
    exists (controllers s). rewrite Hr, Hc. split; [done | lia].
Qed.

Lemma newer_settled c rq o s :
  newer c s → newer c (searchMovies_settled rq o s).
Proof.
  intros (c' & Href & ?). exists c'.
  unfold searchMovies_settled, finally.
  destruct o as [r|e]; [unfold on_response | unfold on_failure];
    repeat case_match; by simpl.
Qed.

Lemma newer_step delay c (e : event) s : newer c s → newer c (step delay e s).
Proof.
  intros Hn. destruct e as [text|dt| |rq o|]; cbn [step].
  - unfold setQuery. case_match; [done |].
    unfold effect, cleanup, debouncedSearchFn.
    apply (newer_abort_current _ (set_query text s)) in Hn as (c' & ? & ?).
    exists c'. by case_match.
  - unfold advance. cbn.
    destruct (timer s) as [[q due]|]; [| done].
    case_match; [| done].
    unfold debouncedSearch. by apply newer_searchMovies.
  - unfold loadMore. case_match; [| done]. by apply newer_searchMovies.
  - by apply newer_settled.
  - by apply newer_abort_current.
Qed.

Lemma newer_run delay c (es : list event) s :
  newer c s → newer c (run delay es s).
Proof.
  revert s. induction es as [|e es IH]; intros s Hn; [done |].
  apply IH. by apply newer_step.
Qed.

(** C1.  Start search A, then search B before A has settled, then let
    anything else happen ([later]: typing, timers, further searches,
    other completions).  Whatever A's promise settles with, the state is
    exactly what it was before, so only B and what came after it are
    reflected.  In general a completing call that is not current changes
    nothing, and one that is current ends with [loading] off. *)
Theorem superseded_search_is_discarded delay s (qA qB : string) (pA pB : Z)
    (later : list event) o :
  JS.blank qA = false →
  JS.blank qB = false →
  (∃ rqA,
     (searchMovies qA pA s).2 = Some rqA
     ∧ searchMovies_settled rqA o
         (run delay later
            (searchMovies qB pB (searchMovies qA pA s).1).1)
       = run delay later (searchMovies qB pB (searchMovies qA pA s).1).1)
  ∧ (∀ rq o' s', is_current rq s' = false →
                 searchMovies_settled rq o' s' = s')
  ∧ (∀ rq o' s', loading (searchMovies_settled rq o' s')
                 = if is_current rq s' then false else loading s').
Proof.
  intros HA HB. split; [| split].
  - destruct (searchMovies_issues qA pA s HA) as (HrqA & HrefA & HcA & _).
    eexists. split; [exact HrqA |].
    apply settled_stale, newer_not_current, newer_run. cbn [rq_controller].
    destruct (searchMovies_issues qB pB (searchMovies qA pA s).1 HB)
      as (_ & HrefB & HcB & _).
    exists (controllers (searchMovies qA pA s).1).
    rewrite HrefB, HcB, HcA. split; [done | lia].
  - intros. by apply settled_stale.
  - intros rq o' s'. destruct (is_current rq s') eqn:Hc.
    + by rewrite settled_current.
    + by rewrite settled_stale.
Qed.

Lemma superseded_search_is_discarded_witness :
  ∃ rqA,
    (searchMovies "bat" 1 initial).2 = Some rqA
    ∧ searchMovies_settled rqA (Resolved Sample.first_page)
        (run 300 [SetQuery "batman"; Advance 300]
           (searchMovies "batm" 1 (searchMovies "bat" 1 initial).1).1)
      = run 300 [SetQuery "batman"; Advance 300]
          (searchMovies "batm" 1 (searchMovies "bat" 1 initial).1).1.
Proof.
  exact (proj1 (superseded_search_is_discarded 300 initial "bat" "batm" 1 1
                  [SetQuery "batman"; Advance 300]
                  (Resolved Sample.first_page) eq_refl eq_refl)).
Defined.

(** *** Completions of the current call *)

Lemma response_not_False (r : IMovieSearchResponse) :
  Response r ≠ "False" → String.eqb (Response r) "False" = false.
Proof. intros H. by apply String.eqb_neq. Qed.

Lemma on_response_success rq (r : IMovieSearchResponse) s :
  is_current rq s = true →
  Response r ≠ "False" →
  on_response rq r s
  = set_hasMore
      (has_records r && JS.gt (JS.parseInt (totalResults r)) (rq_page rq * 10))
      (if (rq_page rq =? 1)%Z
       then set_isInitialLoad false (set_results (Some r) s)
       else set_results (Some (append_page (results s) r)) s).
Proof.
  intros Hcur HR. unfold on_response.
  by rewrite Hcur, (response_not_False r HR).
Qed.

Lemma on_response_False rq (r : IMovieSearchResponse) s :
  is_current rq s = true →
  Response r = "False" →
  on_response rq r s
  = set_hasMore false
      (set_results None
         (set_error
            (Some (if bool_decide (Error r = Some request_limit_reached)
                   then rate_limit_message
                   else JS.or_else (Error r) no_results_message)) s)).
Proof.
  intros Hcur HR. unfold on_response. rewrite Hcur, HR. cbn [String.eqb].
  by case_bool_decide.
Qed.

(** C6.  A successful response for a page other than the first, arriving
    for the current call, leaves as kept result the new response with its
    [Search] replaced by the records held before followed by the records
    of the new page: the order is kept, nothing is lost or added, and the
    total count is the one the new response reports. *)
Theorem next_page_is_appended rq (r : IMovieSearchResponse) s :
  is_current rq s = true →
  Response r ≠ "False" →
  (1 < rq_page rq)%Z →
  results (searchMovies_settled rq (Resolved r) s)
    = Some {| Search := Some (default [] (results s ≫= Search)
                              ++ default [] (Search r))%list;
              totalResults := totalResults r;
              Response := Response r;
              Error := Error r |}
  ∧ results (searchMovies_settled rq (Resolved r) s) ≫= Search
    = Some (default [] (results s ≫= Search) ++ default [] (Search r))%list
  ∧ length (default [] (results (searchMovies_settled rq (Resolved r) s)
                        ≫= Search))
    = (length (default [] (results s ≫= Search))
       + length (default [] (Search r)))%nat
  ∧ totalResults <$> results (searchMovies_settled rq (Resolved r) s)
    = Some (totalResults r).
Proof.
  intros Hcur HR Hp.
  assert (results (searchMovies_settled rq (Resolved r) s)
          = Some {| Search := Some (default [] (results s ≫= Search)
                                    ++ default [] (Search r))%list;
                    totalResults := totalResults r;
                    Response := Response r;
                    Error := Error r |}) as ->.
  { rewrite settled_current, on_response_success by done.
    assert ((rq_page rq =? 1)%Z = false) as -> by lia.
    cbn. unfold append_page, records. by destruct (results s). }
  cbn. by rewrite length_app.
Qed.

Lemma next_page_is_appended_witness :
  results (searchMovies_settled Sample.more_request
             (Resolved Sample.second_page) Sample.waiting_for_more)
    ≫= Search
  = Some [Sample.movie "tt0372784" "Batman Begins";
          Sample.movie "tt0468569" "The Dark Knight";
          Sample.movie "tt1345836" "The Dark Knight Rises"].
Proof.
  destruct (next_page_is_appended Sample.more_request Sample.second_page
              Sample.waiting_for_more)
    as (_ & H & _); [reflexivity | discriminate | reflexivity |].
  rewrite H. vm_compute. reflexivity.
Defined.

Lemma digit_of_digit_char (d : nat) :
  (d < 10)%nat → JS.digit (JS.digit_char d) = Some (Z.of_nat d).
Proof.
  intros Hd. do 10 (destruct d as [|d]; [reflexivity |]). lia.
Qed.

Lemma digits_numeral (ds : list nat) (acc : option Z) :
  Forall (fun d => (d < 10)%nat) ds →
  ds ≠ [] →
  JS.digits acc (JS.numeral ds)
  = Some (foldl (fun a d => (10 * a + Z.of_nat d)%Z) (default 0%Z acc) ds).
Proof.
  intros Hds. revert acc. induction Hds as [|d ds Hd Hds IH]; [done |].
  intros acc _. cbn [JS.numeral JS.digits foldl].
  rewrite (digit_of_digit_char d Hd).
  destruct ds as [|d' ds']; [done |]. by rewrite IH.
Qed.

(** [parseInt] reads a decimal numeral as the number it denotes. *)
Lemma parseInt_numeral (ds : list nat) :
  Forall (fun d => (d < 10)%nat) ds →
  ds ≠ [] →
  JS.parseInt (JS.numeral ds) = Some (JS.numeral_value ds).
Proof.
  intros Hds Hne. destruct ds as [|d ds]; [done |].
  pose proof (digits_numeral (d :: ds) None Hds Hne) as Hdig.
  apply Forall_cons in Hds as [Hd _].
  unfold JS.parseInt. cbn [JS.numeral JS.skip_ws] in *.
  do 10 (destruct d as [|d]; [exact Hdig |]). lia.
Qed.

(** C7.  After a successful response for page [p] of the current call,
    has-more is: the page holds at least one record, and the total count
    the response reports is greater than [p * 10].  The count is the
    decimal numeral in [totalResults]; it and [p * 10] are integers a
    JavaScript number holds exactly.  So has-more is off when the page is
    empty, whatever the count, and off when the count is at most
    [p * 10].  More generally, for any [totalResults] of ASCII characters
    the count is what [parseInt] reads of it, and has-more is off when
    that is not a number. *)
Theorem has_more_after_success rq (r : IMovieSearchResponse) s :
  is_current rq s = true →
  Response r ≠ "False" →
  JS.exact (rq_page rq * 10) →
  (default [] (Search r) = [] →
   hasMore (searchMovies_settled rq (Resolved r) s) = false)
  ∧ (∀ ds, Forall (fun d => (d < 10)%nat) ds → ds ≠ [] →
           totalResults r = JS.numeral ds →
           JS.exact (JS.numeral_value ds) →
           hasMore (searchMovies_settled rq (Resolved r) s)
             = negb (length (default [] (Search r)) =? 0)%nat
               && (rq_page rq * 10 <? JS.numeral_value ds)%Z
           ∧ ((JS.numeral_value ds ≤ rq_page rq * 10)%Z →
              hasMore (searchMovies_settled rq (Resolved r) s) = false))
  ∧ (JS.ascii_only (totalResults r) = true →
     (∀ t, JS.parseInt (totalResults r) = Some t → JS.exact t →
           hasMore (searchMovies_settled rq (Resolved r) s)
           = negb (length (default [] (Search r)) =? 0)%nat
             && (rq_page rq * 10 <? t)%Z)
     ∧ (JS.parseInt (totalResults r) = None →
        hasMore (searchMovies_settled rq (Resolved r) s) = false)).
Proof.
  intros Hcur HR _.
  assert (hasMore (searchMovies_settled rq (Resolved r) s)
          = negb (length (default [] (Search r)) =? 0)%nat
            && JS.gt (JS.parseInt (totalResults r)) (rq_page rq * 10))
    as ->.
  { rewrite settled_current, on_response_success by done.
    unfold has_records. cbn. by destruct (Search r). }
  split; [| split].
  - by intros ->.
  - intros ds Hds Hne -> _. rewrite parseInt_numeral by done. cbn [JS.gt].
    split; [done |]. intros Hle. apply andb_false_iff. right. lia.
  - intros _. split.
    + by intros t -> _.
    + intros ->. cbn. by rewrite andb_false_r.
Qed.

Lemma has_more_after_success_witness :
  hasMore (searchMovies_settled Sample.batman_request
             (Resolved Sample.first_page) Sample.waiting)
  = true.
Proof.
  destruct (has_more_after_success Sample.batman_request Sample.first_page
              Sample.waiting eq_refl ltac:(discriminate)
              ltac:(by vm_compute))
    as (_ & Hnum & _).
  destruct (Hnum [1; 2]%nat) as [H _];
    [repeat constructor | discriminate | reflexivity | by vm_compute |].
  rewrite H. reflexivity.
Defined.

(** *** Transport failures *)

Lemma on_failure_http rq (st : Z) (body : option string) s :
  is_current rq s = true →
  on_failure rq
    (AxiosFailure (Some {| status := st; data_Error := body |})) s
  = set_hasMore false
      (set_results None
         (set_error
            (if JS.truthy_opt body then body
             else if bool_decide (st = 401%Z)
                  then Some credentials_message
             else if bool_decide (st = 429%Z)
                  then Some rate_limit_message
             else Some generic_message) s)).
Proof.
  intros Hcur. unfold on_failure. rewrite Hcur. cbn.
  destruct (JS.truthy_opt body); [done |].
  repeat case_bool_decide; naive_solver.
Qed.

(** C3, as the code has it.  A transport failure with status 401 on the
    current call shows the [Error] text of the response body when the
    body carries a non-empty one, and the credentials message only
    otherwise; either way the results are dropped, has-more is off and
    loading is off. *)
Theorem unauthorized_message rq (body : option string) s :
  is_current rq s = true →
  error (searchMovies_settled rq (unauthorized body) s)
    = (if JS.truthy_opt body then body else Some credentials_message)
  ∧ results (searchMovies_settled rq (unauthorized body) s) = None
  ∧ hasMore (searchMovies_settled rq (unauthorized body) s) = false
  ∧ loading (searchMovies_settled rq (unauthorized body) s) = false.
Proof.
  intros Hcur. unfold unauthorized.
  by rewrite settled_current, on_failure_http.
Qed.

Lemma unauthorized_message_witness :
  error (searchMovies_settled Sample.batman_request
           (unauthorized None) Sample.waiting)
    = Some credentials_message
  ∧ results (searchMovies_settled Sample.batman_request
               (unauthorized None) Sample.waiting) = None
  ∧ hasMore (searchMovies_settled Sample.batman_request
               (unauthorized None) Sample.waiting) = false
  ∧ loading (searchMovies_settled Sample.batman_request
               (unauthorized None) Sample.waiting) = false.
Proof.
  apply (unauthorized_message Sample.batman_request None Sample.waiting).
  reflexivity.
Defined.

(** C3, as stated, fails: the current call is rejected with status 401
    and the body [{Response: "False", Error: "Invalid API key!"}]; the
    message shown is the body's text, not the credentials message. *)
Lemma unauthorized_body_error_shown :
  is_current Sample.batman_request Sample.waiting = true
  ∧ error (searchMovies_settled Sample.batman_request
             (unauthorized (Some "Invalid API key!"))
             Sample.waiting)
    = Some "Invalid API key!"
  ∧ error (searchMovies_settled Sample.batman_request
             (unauthorized (Some "Invalid API key!"))
             Sample.waiting)
    ≠ Some credentials_message.
Proof. by vm_compute. Qed.

(** *** Failures reported in the body *)



(** *** Pagination *)

Lemma searchMovies_page (q : string) (p : Z) s :
  page (searchMovies q p s).1 = page s.
Proof.
  destruct (JS.blank q) eqn:Hq.
  - by rewrite searchMovies_blank.
  - by destruct (searchMovies_issues q p s Hq) as (_&_&_&_&_&_&_&_&?&_).
Qed.


Lemma truthy_nonempty (q : string) : JS.truthy q = true ↔ q ≠ "".
Proof. by destruct q. Qed.





(** *** Typing *)

Lemma tracked_abort_current s : tracked s → tracked (abort_current s).
Proof.
  intros Ht rq Hin. unfold abort_current in *.
  destruct (abortControllerRef s) as [c|] eqn:Href; [| by apply Ht].
  cbn in *. rewrite Href.
  destruct (Ht rq Hin) as [Hab | Hcur]; [left | right; congruence].
  apply elem_of_cons. by right.
Qed.

Lemma tracked_searchMovies (q : string) (p : Z) s :
  tracked s → tracked (searchMovies q p s).1.
Proof.
  intros Ht. destruct (JS.blank q) eqn:Hq.
  - by rewrite searchMovies_blank.
  - unfold searchMovies, abort_current, tracked in *. rewrite Hq.
    destruct s as [? ? ? ? ? ? ref ? ? ? ? ? ? ?]. cbn in *.
    intros rq. destruct ref as [c|]; cbn;
      rewrite elem_of_app, list_elem_of_singleton;
      (intros [Hin | ->]; [| by right]);
      destruct (Ht rq Hin) as [Hab | Hcur]; try done; left; try done.
    + apply elem_of_cons. by right.
    + apply elem_of_cons. left. congruence.
Qed.

Lemma tracked_settled rq o s :
  tracked s → tracked (searchMovies_settled rq o s).
Proof.
  intros Ht. destruct (is_current rq s) eqn:Hcur.
  - rewrite settled_current by done. intros rq'. cbn.
    destruct o as [r|e]; [unfold on_response | unfold on_failure];
      repeat case_match; cbn; apply Ht.
  - by rewrite settled_stale.
Qed.

Lemma tracked_step delay (e : event) s : tracked s → tracked (step delay e s).
Proof.
  intros Ht. destruct e as [text|dt| |rq o|]; cbn [step].
  - unfold setQuery. case_match; [done |].
    apply (tracked_abort_current (set_query text s)) in Ht.
    unfold effect, cleanup, debouncedSearchFn. by case_match.
  - unfold advance. cbn. destruct (timer s) as [[q due]|]; [| done].
    case_match; [| done]. unfold debouncedSearch.
    by apply tracked_searchMovies.
  - unfold loadMore. case_match; [| done]. by apply tracked_searchMovies.
  - by apply tracked_settled.
  - by apply tracked_abort_current.
Qed.

Lemma tracked_run delay (es : list event) s :
  tracked s → tracked (run delay es s).
Proof.
  revert s. induction es as [|e es IH]; intros s Ht; [done |].
  apply IH. by apply tracked_step.
Qed.

Lemma tracked_initial : tracked initial.
Proof. intros rq Hin. by apply elem_of_nil in Hin. Qed.

(** C4.  When the query becomes the empty string the result set is
    dropped, the page is back at 1 and has-more is off; the change itself
    sends no request and runs no search; the controller of the current
    call, if there is one, is aborted, and with it every request sent so
    far has been aborted: none is left outstanding. *)
Theorem empty_query_resets delay s :
  query s ≠ "" →
  tracked s →
  query (setQuery delay "" s) = ""
  ∧ results (setQuery delay "" s) = None
  ∧ page (setQuery delay "" s) = 1%Z
  ∧ hasMore (setQuery delay "" s) = false
  ∧ requests (setQuery delay "" s) = requests s
  ∧ calls (setQuery delay "" s) = calls s
  ∧ (∀ c, abortControllerRef s = Some c →
          c ∈ aborted (setQuery delay "" s))
  ∧ (∀ rq, rq ∈ requests (setQuery delay "" s) →
           rq_controller rq ∈ aborted (setQuery delay "" s)).
Proof.
  intros Hq Ht. unfold setQuery.
  assert (String.eqb "" (query s) = false) as ->.
  { apply String.eqb_neq. congruence. }
  unfold effect, cleanup, abort_current. cbn.
  destruct (abortControllerRef s) as [c0|] eqn:Href; cbn;
    repeat split; try done.
  - intros c [= ->]. apply elem_of_cons. by left.
  - intros rq Hin. apply elem_of_cons.
    destruct (Ht rq Hin) as [Hab | Hcur]; [by right | left; congruence].
  - intros rq Hin. destruct (Ht rq Hin) as [Hab | Hcur]; [done |].
    congruence.
Qed.

Lemma empty_query_resets_witness :
  query (setQuery 300 "" Sample.waiting_for_more) = ""
  ∧ results (setQuery 300 "" Sample.waiting_for_more) = None
  ∧ page (setQuery 300 "" Sample.waiting_for_more) = 1%Z
  ∧ hasMore (setQuery 300 "" Sample.waiting_for_more) = false
  ∧ requests (setQuery 300 "" Sample.waiting_for_more)
    = requests Sample.waiting_for_more
  ∧ calls (setQuery 300 "" Sample.waiting_for_more)
    = calls Sample.waiting_for_more
  ∧ 1%nat ∈ aborted (setQuery 300 "" Sample.waiting_for_more)
  ∧ rq_controller Sample.batman_request
    ∈ aborted (setQuery 300 "" Sample.waiting_for_more).
Proof.
  destruct (empty_query_resets 300 Sample.waiting_for_more
              ltac:(discriminate)
              (tracked_run 300 Sample.session initial tracked_initial))
    as (H1 & H2 & H3 & H4 & H5 & H6 & H7 & H8).
  refine (conj H1 (conj H2 (conj H3 (conj H4 (conj H5 (conj H6
            (conj (H7 1%nat eq_refl) (H8 Sample.batman_request _)))))))).
  rewrite H5.
  assert (requests Sample.waiting_for_more
          = [Sample.batman_request; Sample.more_request]) as ->
    by (vm_compute; reflexivity).
  apply list_elem_of_here.
Defined.

Lemma setQuery_arms delay (text : string) s :
  JS.truthy text = true →
  String.eqb text (query s) = false →
  armed delay text (setQuery delay text s)
  ∧ calls (setQuery delay text s) = calls s
  ∧ requests (setQuery delay text s) = requests s
  ∧ controllers (setQuery delay text s) = controllers s.
Proof.
  intros Ht Hne. unfold armed, setQuery. rewrite Hne.
  unfold effect, cleanup, abort_current, debouncedSearchFn.
  destruct (abortControllerRef (set_query text s)); cbn; by rewrite Ht.
Qed.

Lemma advance_waits delay (dt : N) (q : string) s :
  armed delay q s →
  (dt < delay)%N →
  advance dt s = set_now (now s + dt)%N s.
Proof.
  intros [_ Ht] Hdt. unfold advance. cbn. rewrite Ht.
  by assert ((now s + delay <=? now s + dt)%N = false) as ->
    by (apply N.leb_gt; lia).
Qed.

Lemma advance_fires delay (q : string) s :
  armed delay q s →
  advance delay s
  = debouncedSearch q (set_timer None (set_now (now s + delay)%N s)).
Proof.
  intros [_ Ht]. unfold advance. cbn. rewrite Ht.
  by assert ((now s + delay <=? now s + delay)%N = true) as ->
    by (apply N.leb_le; lia).
Qed.

Lemma debouncedSearch_spec (q : string) s :
  calls (debouncedSearch q s) = (calls s ++ [(q, 1%Z)])%list
  ∧ page (debouncedSearch q s) = 1%Z
  ∧ hasMore (debouncedSearch q s) = false
  ∧ query (debouncedSearch q s) = query s
  ∧ timer (debouncedSearch q s) = timer s
  ∧ requests (debouncedSearch q s)
    = (requests s
       ++ if JS.blank q then []
          else [{| rq_query := q; rq_page := 1;
                   rq_controller := controllers s |}])%list.
Proof.
  unfold debouncedSearch. destruct (JS.blank q) eqn:Hq.
  - rewrite searchMovies_blank by done. cbn. by rewrite app_nil_r.
  - unfold searchMovies. rewrite Hq. unfold abort_current.
    destruct s as [? ? ? ? ? ? ref ? ? ? ? ? ? ?]. cbn. by destruct ref.
Qed.

Lemma run_cons delay (e : event) (es : list event) s :
  run delay (e :: es) s = run delay es (step delay e s).
Proof. reflexivity. Qed.

Lemma typing_cons (dt : N) (text : string) (b : list (N * string)) :
  typing ((dt, text) :: b) = Advance dt :: SetQuery text :: typing b.
Proof. reflexivity. Qed.

Lemma burst_settles delay (b : list (N * string)) (q : string) s :
  armed delay q s →
  within_window delay q b = true →
  calls (run delay (typing b ++ [Advance delay]) s)
    = (calls s ++ [(final_text q b, 1%Z)])%list
  ∧ requests (run delay (typing b ++ [Advance delay]) s)
    = (requests s
       ++ if JS.blank (final_text q b) then []
          else [{| rq_query := final_text q b; rq_page := 1;
                   rq_controller := controllers s |}])%list
  ∧ page (run delay (typing b ++ [Advance delay]) s) = 1%Z
  ∧ hasMore (run delay (typing b ++ [Advance delay]) s) = false
  ∧ query (run delay (typing b ++ [Advance delay]) s) = final_text q b
  ∧ timer (run delay (typing b ++ [Advance delay]) s) = None.
Proof.
  revert q s. induction b as [|[dt text] b IH]; intros q s Harm Hw.
  - cbn. rewrite (advance_fires delay q s Harm).
    destruct (debouncedSearch_spec q
                (set_timer None (set_now (now s + delay)%N s)))
      as (-> & -> & -> & -> & -> & ->).
    by destruct Harm.
  - cbn in Hw. apply andb_true_iff in Hw as [Hw Hb].
    apply andb_true_iff in Hw as [Hw Hne].
    apply andb_true_iff in Hw as [Hdt Ht].
    apply negb_true_iff in Hne. apply N.ltb_lt in Hdt.
    rewrite typing_cons. cbn [app final_text].
    rewrite !run_cons. cbn [step].
    rewrite (advance_waits delay dt q s Harm Hdt).
    assert (String.eqb text (query (set_now (now s + dt)%N s)) = false)
      as Hne' by (destruct Harm as [Hq _]; cbn; by rewrite Hq).
    destruct (setQuery_arms delay text (set_now (now s + dt)%N s) Ht Hne')
      as (Harm' & Hc & Hr & Hk).
    destruct (IH text _ Harm' Hb) as (-> & -> & -> & -> & -> & ->).
    by rewrite Hc, Hr, Hk.
Qed.

(** C5.  Starting in any state, the input changes to a non-empty text
    and then keeps changing, each time to another non-empty text and
    each time less than [delay] after the change before; then [delay]
    passes.  In all that time [searchMovies] has run exactly once, for
    the text typed last and for page 1, with the page set to 1 and
    has-more off; unless that text is only white space, exactly one
    request has been sent, for that text and page 1. *)
Theorem debounce_runs_one_search delay s (q0 : string)
    (b : list (N * string)) :
  q0 ≠ "" →
  q0 ≠ query s →
  within_window delay q0 b = true →
  calls (run delay (SetQuery q0 :: typing b ++ [Advance delay]) s)
    = (calls s ++ [(final_text q0 b, 1%Z)])%list
  ∧ requests (run delay (SetQuery q0 :: typing b ++ [Advance delay]) s)
    = (requests s
       ++ if JS.blank (final_text q0 b) then []
          else [{| rq_query := final_text q0 b; rq_page := 1;
                   rq_controller := controllers s |}])%list
  ∧ page (run delay (SetQuery q0 :: typing b ++ [Advance delay]) s) = 1%Z
  ∧ hasMore (run delay (SetQuery q0 :: typing b ++ [Advance delay]) s)
    = false
  ∧ query (run delay (SetQuery q0 :: typing b ++ [Advance delay]) s)
    = final_text q0 b
  ∧ timer (run delay (SetQuery q0 :: typing b ++ [Advance delay]) s)
    = None.
Proof.
  intros Hq0%truthy_nonempty Hne%String.eqb_neq Hw.
  destruct (setQuery_arms delay q0 s Hq0 Hne) as (Harm & Hc & Hr & Hk).
  rewrite run_cons. cbn [step].
  destruct (burst_settles delay b q0 _ Harm Hw)
    as (-> & -> & -> & -> & -> & ->).
  by rewrite Hc, Hr, Hk.
Qed.

Lemma debounce_runs_one_search_witness :
  calls (run default_delay
           (SetQuery "b"
            :: typing [(120, "ba"); (90, "bat"); (250, "batman")]%N
            ++ [Advance default_delay]) initial)
    = [("batman", 1%Z)]
  ∧ requests (run default_delay
                (SetQuery "b"
                 :: typing [(120, "ba"); (90, "bat"); (250, "batman")]%N
                 ++ [Advance default_delay]) initial)
    = [{| rq_query := "batman"; rq_page := 1; rq_controller := 0 |}].
Proof.
  destruct (debounce_runs_one_search default_delay initial "b"
              [(120, "ba"); (90, "bat"); (250, "batman")]%N
              ltac:(discriminate) ltac:(discriminate) eq_refl)
    as (Hc & Hr & _).
  split; [exact Hc | exact Hr].
Defined.

End SearchProperties.

(** * Further properties *)

(** ** The result cache, continued *)

Section CacheRoundTrips.

Implicit Types (c : Cache.cache) (k : string) (r : IMovieDetails).

Lemma read_add_eq k r c :
  Cache.read (Cache.addToCache k r c) k = Some (Cache.VRecord r).
Proof.
  unfold Cache.addToCache, Cache.read, Cache.inherited.
  destruct (String.eqb k "__proto__") eqn:Hp;
    destruct (Cache.own c !! k) as [d|] eqn:Ho; cbn;
    rewrite ?lookup_insert_eq, ?Ho, ?Hp; done.
Qed.

(** An ordinary key of a cache whose prototype has not been replaced
    reads as absent unless it is an own property. *)
Lemma read_ordinary k c :
  Cache.reserved k = false →
  Cache.proto c = None →
  Cache.read c k = Cache.VRecord <$> Cache.own c !! k.
Proof.
  unfold Cache.reserved, Cache.read, Cache.inherited.
  intros [Hp Hn]%orb_false_iff Hproto. rewrite Hp, Hn, Hproto.
  by destruct (Cache.own c !! k).
Qed.

(** X1.  A record put under a key is the one read back, and a second put
    under the same key replaces the first: the cache is then the same as
    if only the second had happened. *)
Theorem cache_put_then_get k r r' c :
  (Cache.getFromCache k (Cache.addToCache k r c)).1 = Some (Cache.VRecord r)
  ∧ (Cache.getFromCache k (Cache.addToCache k r' (Cache.addToCache k r c))).1
    = Some (Cache.VRecord r')
  ∧ Cache.addToCache k r' (Cache.addToCache k r c) = Cache.addToCache k r' c.
Proof.
  unfold Cache.getFromCache. cbn [fst]. rewrite !read_add_eq. cbn.
  repeat split. unfold Cache.addToCache.
  destruct (String.eqb k "__proto__") eqn:Hp;
    destruct (Cache.own c !! k) as [d|] eqn:Ho; cbn;
    rewrite ?lookup_insert_eq, ?Ho, ?Hp; cbn;
    by rewrite ?insert_insert_eq.
Qed.

(** X2.  [removeFromCache] removes the own property of its key and
    nothing else; removing twice is removing once, and removing a key
    that is no own property leaves the cache as it is.  So an ordinary key
    (not [__proto__], not a name of [Object.prototype]) of a cache whose
    prototype has not been replaced is absent after its removal, and
    putting a record under a fresh key other than [__proto__] and removing
    it again restores the cache.  A record put under [__proto__] is not an
    own property: removing [__proto__] leaves it in place and it is still
    read back. *)
Theorem cache_remove_forgets k r c :
  Cache.removeFromCache k (Cache.removeFromCache k c)
    = Cache.removeFromCache k c
  ∧ (Cache.own c !! k = None →
     Cache.removeFromCache k c = c
     ∧ (k ≠ "__proto__" →
        Cache.removeFromCache k (Cache.addToCache k r c) = c))
  ∧ (Cache.reserved k = false → Cache.proto c = None →
     (Cache.getFromCache k (Cache.removeFromCache k c)).1 = None)
  ∧ (Cache.own c !! "__proto__" = None →
     (Cache.getFromCache "__proto__"
        (Cache.removeFromCache "__proto__"
           (Cache.addToCache "__proto__" r c))).1
     = Some (Cache.VRecord r)).
Proof.
  split; [| split; [| split]].
  - unfold Cache.removeFromCache. cbn. f_equal.
    apply delete_id, lookup_delete_eq.
  - intros Ho.
    assert (Cache.removeFromCache k c = c) as Hid.
    { unfold Cache.removeFromCache. rewrite delete_id by done.
      by destruct c. }
    split; [done |]. intros Hp%String.eqb_neq.
    unfold Cache.addToCache. rewrite Hp. cbn [andb].
    unfold Cache.removeFromCache. cbn. rewrite delete_insert_eq.
    rewrite delete_id by done. by destruct c.
  - intros Hk Hproto. unfold Cache.getFromCache. cbn [fst].
    rewrite read_ordinary by done. cbn. by rewrite lookup_delete_eq.
  - intros Ho. unfold Cache.addToCache. rewrite Ho. cbn.
    unfold Cache.getFromCache, Cache.read, Cache.inherited. cbn.
    by rewrite lookup_delete_eq.
Qed.

Lemma cache_remove_forgets_witness :
  (Cache.removeFromCache "tt0468569" Sample.warm_cache = Sample.warm_cache
   ∧ Cache.removeFromCache "tt0468569"
       (Cache.addToCache "tt0468569" Sample.batman_begins
          Sample.warm_cache)
     = Sample.warm_cache)
  ∧ (Cache.getFromCache "tt0372784"
       (Cache.removeFromCache "tt0372784" Sample.warm_cache)).1 = None
  ∧ (Cache.getFromCache "__proto__"
       (Cache.removeFromCache "__proto__"
          (Cache.addToCache "__proto__" Sample.batman_begins
             Sample.warm_cache))).1
    = Some (Cache.VRecord Sample.batman_begins).
Proof.
  destruct (cache_remove_forgets "tt0468569" Sample.batman_begins
              Sample.warm_cache) as (_ & Hfresh & _).
  destruct (cache_remove_forgets "tt0372784" Sample.batman_begins
              Sample.warm_cache) as (_ & _ & Hgone & Hproto).
  split; [| split].
  - destruct (Hfresh ltac:(by vm_compute)) as [H1 H2].
    split; [exact H1 | apply H2; discriminate].
  - apply Hgone; by vm_compute.
  - apply Hproto. by vm_compute.
Defined.

(** X3.  [clearCache] removes every own property and leaves the
    prototype; clearing twice is clearing once.  So after clearing a cache
    whose prototype has not been replaced every ordinary key is absent,
    and a record put afterwards is read back.  A record put under
    [__proto__] is not an own property, is not listed by [Object.keys],
    and is still read back after clearing. *)
Theorem cache_clear_forgets_all k r c :
  Cache.clearCache c = {| Cache.own := ∅; Cache.proto := Cache.proto c |}
  ∧ Cache.clearCache (Cache.clearCache c) = Cache.clearCache c
  ∧ (Cache.getFromCache k (Cache.addToCache k r (Cache.clearCache c))).1
    = Some (Cache.VRecord r)
  ∧ (Cache.reserved k = false → Cache.proto c = None →
     (Cache.getFromCache k (Cache.clearCache c)).1 = None)
  ∧ (Cache.own c !! "__proto__" = None →
     (Cache.getFromCache "__proto__"
        (Cache.clearCache (Cache.addToCache "__proto__" r c))).1
     = Some (Cache.VRecord r)).
Proof.
  rewrite !clearCache_empty. cbn [Cache.own Cache.proto].
  split; [done |]. split; [done |]. split; [| split].
  - unfold Cache.getFromCache. cbn [fst]. by rewrite read_add_eq.
  - intros Hk Hproto. unfold Cache.getFromCache. cbn [fst].
    rewrite read_ordinary by done. cbn. by rewrite lookup_empty.
  - intros Ho. unfold Cache.addToCache. rewrite Ho. cbn.
    unfold Cache.getFromCache, Cache.read, Cache.inherited. cbn.
    by rewrite lookup_empty.
Qed.

Lemma cache_clear_forgets_all_witness :
  (Cache.getFromCache "tt0372784" (Cache.clearCache Sample.warm_cache)).1
    = None
  ∧ (Cache.getFromCache "__proto__"
       (Cache.clearCache
          (Cache.addToCache "__proto__" Sample.batman_begins
             Sample.warm_cache))).1
    = Some (Cache.VRecord Sample.batman_begins).
Proof.
  destruct (cache_clear_forgets_all "tt0372784" Sample.batman_begins
              Sample.warm_cache) as (_ & _ & _ & Hgone & Hproto).
  split; [apply Hgone | apply Hproto]; by vm_compute.
Defined.

End CacheRoundTrips.

(** ** The search orchestrator, continued *)

Section SearchInvariants.

Import Search.

Implicit Types (s : state) (rq : request) (o : outcome) (delay : N)
  (e : event).

(** A call of [searchMovies] either sends nothing and leaves controllers
    and ref alone, or sends one request under a new controller that
    becomes the current one. *)
Lemma searchMovies_sends (q : string) (p : Z) s :
  (requests (searchMovies q p s).1 = requests s
   ∧ controllers (searchMovies q p s).1 = controllers s
   ∧ abortControllerRef (searchMovies q p s).1 = abortControllerRef s)
  ∨ (JS.blank q = false
     ∧ requests (searchMovies q p s).1
       = (requests s
          ++ [{| rq_query := q; rq_page := p;
                 rq_controller := controllers s |}])%list
     ∧ controllers (searchMovies q p s).1 = S (controllers s)
     ∧ abortControllerRef (searchMovies q p s).1 = Some (controllers s)).
Proof.
  destruct (JS.blank q) eqn:Hq.
  - left. by rewrite searchMovies_blank.
  - right. destruct (searchMovies_issues q p s Hq) as (_&?&?&?&_). done.
Qed.

Lemma settled_keeps rq o s :
  requests (searchMovies_settled rq o s) = requests s
  ∧ controllers (searchMovies_settled rq o s) = controllers s
  ∧ abortControllerRef (searchMovies_settled rq o s) = abortControllerRef s
  ∧ page (searchMovies_settled rq o s) = page s
  ∧ aborted (searchMovies_settled rq o s) = aborted s
  ∧ calls (searchMovies_settled rq o s) = calls s
  ∧ query (searchMovies_settled rq o s) = query s
  ∧ timer (searchMovies_settled rq o s) = timer s.
Proof.
  destruct (is_current rq s) eqn:Hcur.
  - rewrite settled_current by done.
    destruct o as [r|err]; [unfold on_response | unfold on_failure];
      repeat case_match; done.
  - by rewrite settled_stale.
Qed.

(** How one event moves the page counter and what it sends. *)
Lemma step_sends delay e s :
  (page (step delay e s) = 1%Z ∨ page (step delay e s) = page s
   ∨ page (step delay e s) = (page s + 1)%Z)
  ∧ ((requests (step delay e s) = requests s
      ∧ controllers (step delay e s) = controllers s
      ∧ abortControllerRef (step delay e s) = abortControllerRef s)
     ∨ (∃ q p,
          JS.blank q = false
          ∧ (p = 1%Z ∨ p = (page s + 1)%Z)
          ∧ requests (step delay e s)
            = (requests s
               ++ [{| rq_query := q; rq_page := p;
                      rq_controller := controllers s |}])%list
          ∧ controllers (step delay e s) = S (controllers s)
          ∧ abortControllerRef (step delay e s) = Some (controllers s))).
Proof.
  destruct e as [text|dt| |rq o|]; cbn [step].
  - unfold setQuery. case_match; [by auto |].
    unfold effect, cleanup, abort_current, debouncedSearchFn.
    destruct s as [? ? ? ? ? ? ref ? ? ? ? ? ? ?]. cbn.
    destruct ref; case_match; cbn; auto.
  - unfold advance. cbn. destruct (timer s) as [[q due]|]; [| by auto].
    case_match; [| by auto]. unfold debouncedSearch.
    rewrite searchMovies_page. split; [by left |].
    match goal with
    | |- context [searchMovies q 1 ?t] =>
        destruct (searchMovies_sends q 1 t) as [Hsame | (Hq & Hnew)]
    end; [by left | right].
    exists q, 1%Z. auto.
  - unfold loadMore. case_match; [| by auto].
    rewrite searchMovies_page. split; [by right; right |].
    destruct (searchMovies_sends (query s) (page s + 1)
                (set_page (page s + 1) s)) as [Hsame | (Hq & Hnew)];
      [by left | right].
    exists (query s), (page s + 1)%Z. auto.
  - destruct (settled_keeps rq o s) as (-> & -> & -> & -> & _). auto.
  - unfold unmount, cleanup, abort_current.
    destruct (abortControllerRef s) eqn:Href; cbn; auto 10.
Qed.

Lemma pages_positive_step delay e s :
  pages_positive s → pages_positive (step delay e s).
Proof.
  intros [Hp Hrq].
  destruct (step_sends delay e s) as [Hpage Hsend]. split; [lia |].
  destruct Hsend as [(Hreq & _) | (q & p & _ & Hpq & Hreq & _)];
    rewrite Hreq; [done |].
  intros rq [Hin | ->%list_elem_of_singleton]%elem_of_app; [by apply Hrq |].
  cbn. lia.
Qed.

Lemma controllers_fresh_step delay e s :
  controllers_fresh s → controllers_fresh (step delay e s).
Proof.
  intros (Href & Hrq & Hnd).
  unfold controllers_fresh.
  destruct (step_sends delay e s)
    as [_ [(Hr & Hc & Ha) | (q & p & _ & _ & Hr & Hc & Ha)]];
    rewrite Hr, Hc, Ha; [done |].
  split; [| split].
  - intros c [= <-]. lia.
  - intros rq [Hin | ->%list_elem_of_singleton]%elem_of_app.
    + specialize (Hrq rq Hin). lia.
    + cbn. lia.
  - rewrite fmap_app. apply NoDup_app. split; [done |]. split.
    + intros c (rq & Hc1 & Hin)%list_elem_of_fmap Hc2. cbn in Hc2.
      apply list_elem_of_singleton in Hc2. specialize (Hrq rq Hin). lia.
    + apply NoDup_singleton.
Qed.

Lemma results_sound_searchMovies (q : string) (p : Z) s :
  results_sound s → results_sound (searchMovies q p s).1.
Proof.
  intros Hs. destruct (JS.blank q) eqn:Hq.
  - rewrite searchMovies_blank by done. by split.
  - destruct (searchMovies_issues q p s Hq) as (_&_&_&_&_&_&_&Hr&_&Hh).
    unfold results_sound. by rewrite Hr, Hh.
Qed.

Lemma results_sound_settled rq o s :
  results_sound s → results_sound (searchMovies_settled rq o s).
Proof.
  intros [HR Hh]. destruct (is_current rq s) eqn:Hcur;
    [| by rewrite settled_stale].
  rewrite settled_current by done. destruct o as [r|err].
  - destruct (String.eqb (Response r) "False") eqn:HF.
    + apply String.eqb_eq in HF. rewrite on_response_False by done.
      by split.
    + apply String.eqb_neq in HF. rewrite on_response_success by done.
      assert (has_records r = true → default [] (Search r) ≠ []) as Hrec.
      { unfold has_records. destruct (Search r) as [[|m l]|]; by cbn. }
      case_match; (split; cbn; intros; simplify_eq; [done |]).
      * unfold records in *. cbn in *.
        apply Hrec. by destruct (has_records r).
      * intros [_ Hnil]%app_eq_nil.
        revert Hnil. apply Hrec. by destruct (has_records r).
  - unfold on_failure. destruct err; rewrite ?Hcur; by split.
Qed.

Lemma results_sound_step delay e s :
  results_sound s → results_sound (step delay e s).
Proof.
  intros Hs. destruct e as [text|dt| |rq o|]; cbn [step].
  - unfold setQuery. case_match; [done |].
    unfold effect, cleanup, abort_current, debouncedSearchFn.
    destruct s as [? ? ? ? ? ? ref ? ? ? ? ? ? ?].
    destruct ref; cbn; case_match; done.
  - unfold advance. cbn. destruct (timer s) as [[q due]|]; [| done].
    case_match; [| done]. unfold debouncedSearch.
    apply results_sound_searchMovies. destruct Hs. by split.
  - unfold loadMore. case_match; [| done].
    by apply results_sound_searchMovies.
  - by apply results_sound_settled.
  - unfold unmount, cleanup, abort_current.
    by destruct (abortControllerRef s).
Qed.

End SearchInvariants.

Section SearchFurther.

Import Search.

Implicit Types (s : state) (rq : request) (o : outcome) (delay : N)
  (e : event).

Lemma run_invariant delay (P : state → Prop) :
  (∀ e s, P s → P (step delay e s)) →
  ∀ es s, P s → P (run delay es s).
Proof.
  intros Hstep es. induction es as [|e es IH]; intros s Hs; [done |].
  apply IH. by apply Hstep.
Qed.

Lemma blank_false_truthy (q : string) :
  JS.blank q = false → JS.truthy q = true.
Proof.
  unfold JS.blank. destruct q as [|a q]; [done |]. by cbn.
Qed.

Lemma issued_is_current (q : string) (p : Z) s :
  JS.blank q = false →
  is_current {| rq_query := q; rq_page := p; rq_controller := controllers s |}
             (searchMovies q p s).1 = true.
Proof.
  intros Hq. destruct (searchMovies_issues q p s Hq) as (_ & Href & _).
  unfold is_current. rewrite Href. by apply bool_decide_eq_true.
Qed.

(** X4.  Whatever happens to a mounted hook, the page counter stays at 1
    or above and every request it sends asks for page 1 or above. *)
Theorem pages_stay_positive delay (es : list event) :
  (1 ≤ page (run delay es initial))%Z
  ∧ ∀ rq, rq ∈ requests (run delay es initial) → (1 ≤ rq_page rq)%Z.
Proof.
  apply (run_invariant delay pages_positive (pages_positive_step delay)).
  split; [done |]. intros rq Hin. by apply elem_of_nil in Hin.
Qed.

(** X5.  Whatever happens to a mounted hook, every request it has sent
    carries a controller of its own (no two requests share one), and each
    of them has been aborted unless it belongs to the call that is current:
    at most one request is outstanding at any time. *)
Theorem one_request_outstanding delay (es : list event) :
  NoDup (rq_controller <$> requests (run delay es initial))
  ∧ ∀ rq, rq ∈ requests (run delay es initial) →
          rq_controller rq ∈ aborted (run delay es initial)
          ∨ is_current rq (run delay es initial) = true.
Proof.
  split.
  - apply (run_invariant delay controllers_fresh
             (controllers_fresh_step delay)).
    repeat split; try done.
    + intros rq Hin. by apply elem_of_nil in Hin.
    + apply NoDup_nil_2.
  - intros rq Hin.
    destruct (tracked_run delay es initial tracked_initial rq Hin)
      as [Hab | Hcur]; [by left | right].
    unfold is_current. by apply bool_decide_eq_true.
Qed.

(** X6.  Whatever happens to a mounted hook, has-more is on only while the
    accumulated list holds at least one record, and the result it keeps is
    never a body with [Response: "False"]. *)
Theorem has_more_only_with_records delay (es : list event) :
  (hasMore (run delay es initial) = true →
   records (results (run delay es initial)) ≠ [])
  ∧ ∀ r, results (run delay es initial) = Some r → Response r ≠ "False".
Proof.
  destruct (run_invariant delay results_sound (results_sound_step delay)
              es initial) as [HR Hh]; [by split |].
  by split.
Qed.

Lemma has_more_only_with_records_witness :
  records (results (run 300 Sample.session initial)) ≠ [].
Proof.
  apply (proj1 (has_more_only_with_records 300 Sample.session)).
  vm_compute. reflexivity.
Defined.

(** X7.  The "No movies found" notice of the search page needs a kept
    result with [Response: "False"]; the hook never keeps one, so in no
    state of the hook is the notice shown. *)
Theorem no_results_notice_never_shown delay (es : list event) :
  MovieSearch.showNoResults (run delay es initial) = false.
Proof.
  destruct (run_invariant delay results_sound (results_sound_step delay)
              es initial) as [HR _]; [by split |].
  unfold MovieSearch.showNoResults.
  destruct (results (run delay es initial)) as [r|] eqn:Hres.
  - specialize (HR r eq_refl). apply String.eqb_neq in HR. rewrite HR.
    cbn. by rewrite andb_false_r.
  - cbn. by rewrite andb_false_r.
Qed.

(** *** Failures of the transport *)

(** X8.  A transport failure of the current call, other than a
    cancellation, is turned into a message: the [Error] text of the
    response body when there is a non-empty one, whatever the status; else
    the rate-limit message for status 429; else, for a status other than
    401 and 429, for a failure without response and for an error that is
    not an axios error, the generic message.  Every such failure drops the
    results and turns has-more and loading off. *)
Theorem transport_failure_messages rq s (st : Z) (body : option string) :
  is_current rq s = true →
  (JS.truthy_opt body = true →
   error (searchMovies_settled rq
            (Rejected (AxiosFailure
                         (Some {| status := st; data_Error := body |}))) s)
   = body)
  ∧ (JS.truthy_opt body = false → st = 429%Z →
     error (searchMovies_settled rq
              (Rejected (AxiosFailure
                           (Some {| status := st; data_Error := body |}))) s)
     = Some rate_limit_message)
  ∧ (JS.truthy_opt body = false → st ≠ 401%Z → st ≠ 429%Z →
     error (searchMovies_settled rq
              (Rejected (AxiosFailure
                           (Some {| status := st; data_Error := body |}))) s)
     = Some generic_message)
  ∧ error (searchMovies_settled rq (Rejected (AxiosFailure None)) s)
    = Some generic_message
  ∧ error (searchMovies_settled rq (Rejected OtherFailure) s)
    = Some generic_message
  ∧ (∀ err, err ≠ Cancelled →
            results (searchMovies_settled rq (Rejected err) s) = None
            ∧ hasMore (searchMovies_settled rq (Rejected err) s) = false
            ∧ loading (searchMovies_settled rq (Rejected err) s) = false).
Proof.
  intros Hcur. rewrite !settled_current, !on_failure_http by done.
  split; [| split; [| split; [| split; [| split]]]].
  - by intros ->.
  - intros -> ->. by cbn.
  - intros -> H401 H429. cbn. by rewrite !bool_decide_eq_false_2.
  - unfold on_failure. by rewrite Hcur.
  - unfold on_failure. by rewrite Hcur.
  - intros err Herr. rewrite settled_current by done.
    unfold on_failure. destruct err; [done | |]; by rewrite Hcur.
Qed.

Lemma transport_failure_messages_witness :
  error (searchMovies_settled Sample.batman_request
           (Rejected (AxiosFailure
                        (Some {| status := 429; data_Error := None |})))
           Sample.waiting)
  = Some rate_limit_message.
Proof.
  refine (proj1 (proj2 (transport_failure_messages Sample.batman_request
                          Sample.waiting 429 None _)) eq_refl eq_refl).
  vm_compute. reflexivity.
Defined.

(** *** Changes of the query *)

Lemma setQuery_changed delay (text : string) s :
  text ≠ query s →
  setQuery delay text s = effect delay (abort_current (set_query text s)).
Proof.
  intros Hne%String.eqb_neq. unfold setQuery. by rewrite Hne.
Qed.

(** What a change of the query leaves alone, and what it aborts. *)
Lemma setQuery_keeps delay (text : string) s :
  text ≠ query s →
  query (setQuery delay text s) = text
  ∧ loading (setQuery delay text s) = loading s
  ∧ error (setQuery delay text s) = error s
  ∧ abortControllerRef (setQuery delay text s) = abortControllerRef s
  ∧ controllers (setQuery delay text s) = controllers s
  ∧ requests (setQuery delay text s) = requests s
  ∧ calls (setQuery delay text s) = calls s
  ∧ now (setQuery delay text s) = now s
  ∧ (∀ c, abortControllerRef s = Some c →
          c ∈ aborted (setQuery delay text s)).
Proof.
  intros Hne. rewrite setQuery_changed by done.
  unfold effect, abort_current, debouncedSearchFn.
  destruct s as [? ? ? ? ? ? ref ? ? ? ? ? ? ?]. cbn.
  destruct ref as [c0|]; cbn; destruct (JS.truthy text); cbn;
    repeat split; try done; intros c [= ->]; apply list_elem_of_here.
Qed.

(** A change to a non-empty text arms the timer and touches neither the
    results nor the flags [loadMore] looks at. *)
Lemma setQuery_nonempty delay (text : string) s :
  text ≠ query s →
  JS.truthy text = true →
  timer (setQuery delay text s) = Some (text, (now s + delay)%N)
  ∧ results (setQuery delay text s) = results s
  ∧ page (setQuery delay text s) = page s
  ∧ hasMore (setQuery delay text s) = hasMore s
  ∧ isInitialLoad (setQuery delay text s) = isInitialLoad s.
Proof.
  intros Hne Ht. rewrite setQuery_changed by done.
  unfold effect, abort_current, debouncedSearchFn.
  destruct s as [? ? ? ? ? ? ref ? ? ? ? ? ? ?]. cbn.
  destruct ref; cbn; by rewrite Ht.
Qed.

(** X9.  When the query changes while a request is in flight, that request
    is aborted; when its promise then rejects with the cancellation, the
    only thing that changes is that loading goes off: no error is shown
    and the results on screen stay. *)
Theorem aborted_request_is_silent delay rq s (text : string) :
  is_current rq s = true →
  text ≠ query s →
  rq_controller rq ∈ aborted (setQuery delay text s)
  ∧ searchMovies_settled rq (Rejected Cancelled) (setQuery delay text s)
    = set_loading false (setQuery delay text s).
Proof.
  intros Hcur Hne.
  destruct (setQuery_keeps delay text s Hne) as (_&_&_&Href&_&_&_&_&Hab).
  unfold is_current in Hcur. apply bool_decide_eq_true in Hcur.
  split; [by apply Hab |].
  rewrite settled_current; [done |].
  unfold is_current. apply bool_decide_eq_true. by rewrite Href.
Qed.

Lemma aborted_request_is_silent_witness :
  rq_controller Sample.batman_request
    ∈ aborted (setQuery 300 "batman begins" Sample.waiting)
  ∧ searchMovies_settled Sample.batman_request (Rejected Cancelled)
      (setQuery 300 "batman begins" Sample.waiting)
    = set_loading false (setQuery 300 "batman begins" Sample.waiting).
Proof.
  apply (aborted_request_is_silent 300 Sample.batman_request Sample.waiting
           "batman begins").
  - vm_compute. reflexivity.
  - vm_compute. discriminate.
Defined.

(** X10.  Neither clearing the input nor typing only white space clears
    a message shown earlier or touches loading.  Clearing the input leaves
    [error], [loading] and the pending timer as they were.  A text of
    white space only is searched after the delay like any other, but the
    search sends nothing: the results are dropped, has-more goes off, the
    page is 1, and [error] and [loading] are still what they were. *)
Theorem blank_queries_keep_message delay s (text : string) :
  text ≠ query s →
  JS.blank text = true →
  (text = "" →
   error (setQuery delay text s) = error s
   ∧ loading (setQuery delay text s) = loading s
   ∧ timer (setQuery delay text s) = timer s)
  ∧ (text ≠ "" →
     results (run delay [SetQuery text; Advance delay] s) = None
     ∧ hasMore (run delay [SetQuery text; Advance delay] s) = false
     ∧ page (run delay [SetQuery text; Advance delay] s) = 1%Z
     ∧ requests (run delay [SetQuery text; Advance delay] s) = requests s
     ∧ error (run delay [SetQuery text; Advance delay] s) = error s
     ∧ loading (run delay [SetQuery text; Advance delay] s) = loading s).
Proof.
  intros Hne Hb. split.
  - intros ->. rewrite setQuery_changed by done.
    unfold effect, abort_current.
    destruct s as [? ? ? ? ? ? ref ? ? ? ? ? ? ?]. cbn. by destruct ref.
  - intros Ht%truthy_nonempty.
    destruct (setQuery_keeps delay text s Hne)
      as (Hq & Hl & He & _ & _ & Hr & _ & Hn & _).
    destruct (setQuery_nonempty delay text s Hne Ht) as (Htm & _).
    assert (armed delay text (setQuery delay text s)) as Harm.
    { split; [done |]. by rewrite Htm, Hn. }
    rewrite !run_cons. cbn [run foldl step].
    rewrite (advance_fires delay text _ Harm).
    unfold debouncedSearch. rewrite searchMovies_blank by done. cbn.
    by rewrite Hr, He, Hl.
Qed.

Lemma blank_queries_keep_message_witness :
  results (run 300 [SetQuery "  "; Advance 300] Sample.loaded) = None
  ∧ hasMore (run 300 [SetQuery "  "; Advance 300] Sample.loaded) = false
  ∧ page (run 300 [SetQuery "  "; Advance 300] Sample.loaded) = 1%Z
  ∧ requests (run 300 [SetQuery "  "; Advance 300] Sample.loaded)
    = requests Sample.loaded
  ∧ error (run 300 [SetQuery "  "; Advance 300] Sample.loaded)
    = error Sample.loaded
  ∧ loading (run 300 [SetQuery "  "; Advance 300] Sample.loaded)
    = loading Sample.loaded.
Proof.
  refine (proj2 (blank_queries_keep_message 300 Sample.loaded "  " _ _) _).
  - vm_compute. discriminate.
  - vm_compute. reflexivity.
  - discriminate.
Defined.

(** *** From a search to its results *)

(** X11.  When the debounced search of a text that is not blank runs and
    its request then succeeds, the result kept is exactly that response:
    nothing of what was accumulated before is left.  Loading is off, no
    error is shown, the page is 1 and the initial-load flag is down. *)
Theorem first_page_replaces_results (q : string) (r : IMovieSearchResponse)
    s :
  JS.blank q = false →
  Response r ≠ "False" →
  results (searchMovies_settled
             {| rq_query := q; rq_page := 1; rq_controller := controllers s |}
             (Resolved r) (debouncedSearch q s))
    = Some r
  ∧ loading (searchMovies_settled
               {| rq_query := q; rq_page := 1;
                  rq_controller := controllers s |}
               (Resolved r) (debouncedSearch q s))
    = false
  ∧ error (searchMovies_settled
             {| rq_query := q; rq_page := 1; rq_controller := controllers s |}
             (Resolved r) (debouncedSearch q s))
    = None
  ∧ page (searchMovies_settled
            {| rq_query := q; rq_page := 1; rq_controller := controllers s |}
            (Resolved r) (debouncedSearch q s))
    = 1%Z
  ∧ isInitialLoad (searchMovies_settled
                     {| rq_query := q; rq_page := 1;
                        rq_controller := controllers s |}
                     (Resolved r) (debouncedSearch q s))
    = false.
Proof.
  intros Hq HR. unfold debouncedSearch.
  set (s0 := set_isInitialLoad true (set_hasMore false (set_page 1 s))).
  change (controllers s) with (controllers s0).
  rewrite settled_current by by apply issued_is_current.
  rewrite on_response_success; [| by apply issued_is_current | done].
  cbn [rq_page Z.eqb Pos.eqb].
  destruct (searchMovies_issues q 1 s0 Hq)
    as (_&_&_&_&_&_&He&_&Hp&_).
  cbn. by rewrite He, Hp.
Qed.

Lemma first_page_replaces_results_witness :
  results (searchMovies_settled
             {| rq_query := "joker"; rq_page := 1;
                rq_controller := controllers Sample.loaded |}
             (Resolved Sample.second_page)
             (debouncedSearch "joker" Sample.loaded))
  = Some Sample.second_page.
Proof.
  apply (first_page_replaces_results "joker" Sample.second_page
           Sample.loaded); [reflexivity | discriminate].
Defined.

(** X12.  [loadMore] and the success of the request it sends, taken
    together: from a state where the guards pass, with a query that is not
    blank and the page at 1 or above, the kept [Search] is the records
    held before followed by the records of the new page, the page is one
    further, loading is off again and no error is shown; and when the
    response reports its total count as a decimal numeral (it and ten
    times the new page being integers a JavaScript number holds exactly),
    has-more is on exactly when the new page has a record and the count
    is above ten times the new page. *)
Theorem load_more_round_trip (r : IMovieSearchResponse) s :
  loading s = false →
  hasMore s = true →
  isInitialLoad s = false →
  JS.blank (query s) = false →
  (1 ≤ page s)%Z →
  Response r ≠ "False" →
  results (searchMovies_settled
             {| rq_query := query s; rq_page := page s + 1;
                rq_controller := controllers s |}
             (Resolved r) (loadMore s)) ≫= Search
    = Some (default [] (results s ≫= Search) ++ default [] (Search r))%list
  ∧ page (searchMovies_settled
            {| rq_query := query s; rq_page := page s + 1;
               rq_controller := controllers s |}
            (Resolved r) (loadMore s))
    = (page s + 1)%Z
  ∧ loading (searchMovies_settled
               {| rq_query := query s; rq_page := page s + 1;
                  rq_controller := controllers s |}
               (Resolved r) (loadMore s))
    = false
  ∧ error (searchMovies_settled
             {| rq_query := query s; rq_page := page s + 1;
                rq_controller := controllers s |}
             (Resolved r) (loadMore s))
    = None
  ∧ (∀ ds, Forall (fun d => (d < 10)%nat) ds → ds ≠ [] →
           totalResults r = JS.numeral ds →
           JS.exact (JS.numeral_value ds) →
           JS.exact ((page s + 1) * 10) →
           hasMore (searchMovies_settled
                      {| rq_query := query s; rq_page := page s + 1;
                         rq_controller := controllers s |}
                      (Resolved r) (loadMore s))
           = negb (length (default [] (Search r)) =? 0)%nat
             && ((page s + 1) * 10 <? JS.numeral_value ds)%Z).
Proof.
  intros Hl Hh Hi Hq Hp HR.
  assert (loadMore s
          = (searchMovies (query s) (page s + 1)
               (set_page (page s + 1) s)).1) as ->.
  { unfold loadMore.
    by rewrite Hl, Hh, Hi, (blank_false_truthy _ Hq). }
  set (s0 := set_page (page s + 1) s).
  change (controllers s) with (controllers s0).
  rewrite settled_current by by apply issued_is_current.
  rewrite on_response_success; [| by apply issued_is_current | done].
  cbn [rq_page].
  assert ((page s + 1 =? 1)%Z = false) as -> by lia.
  destruct (searchMovies_issues (query s) (page s + 1) s0 Hq)
    as (_&_&_&_&_&_&He&Hr&Hpg&_).
  cbn. rewrite He, Hr, Hpg. cbn.
  split; [unfold records; by destruct (results s) |].
  repeat split. intros ds Hds Hne -> _ _.
  rewrite parseInt_numeral by done. unfold has_records. cbn.
  by destruct (Search r).
Qed.

Lemma load_more_round_trip_witness :
  results (searchMovies_settled
             {| rq_query := query Sample.loaded;
                rq_page := page Sample.loaded + 1;
                rq_controller := controllers Sample.loaded |}
             (Resolved Sample.second_page)
             (loadMore Sample.loaded)) ≫= Search
  = Some [Sample.movie "tt0372784" "Batman Begins";
          Sample.movie "tt0468569" "The Dark Knight";
          Sample.movie "tt1345836" "The Dark Knight Rises"].
Proof.
  pose proof (load_more_round_trip Sample.second_page Sample.loaded
                ltac:(vm_compute; reflexivity) ltac:(vm_compute; reflexivity)
                ltac:(vm_compute; reflexivity) ltac:(vm_compute; reflexivity)
                ltac:(vm_compute; discriminate) ltac:(discriminate))
    as (H & _).
  rewrite H. vm_compute. reflexivity.
Defined.

(** *** Between a change of the query and the firing of the timer *)

(** X13.  A change of the query to another non-empty text leaves
    [loading], has-more and the initial-load flag as the previous query
    left them until the debounce timer fires.  So if [loadMore] is called
    in between, with a load finished, has-more on and the flag down, it
    goes ahead: it sends a request for the new text and the page after the
    current one, while the search of the new text for page 1 is still
    pending in the timer. *)
Theorem loadMore_before_timer_fires delay s (text : string) :
  loading s = false →
  hasMore s = true →
  isInitialLoad s = false →
  JS.blank text = false →
  text ≠ query s →
  requests (loadMore (setQuery delay text s))
    = (requests s
       ++ [{| rq_query := text; rq_page := page s + 1;
              rq_controller := controllers s |}])%list
  ∧ page (loadMore (setQuery delay text s)) = (page s + 1)%Z
  ∧ results (loadMore (setQuery delay text s)) = results s
  ∧ timer (loadMore (setQuery delay text s))
    = Some (text, (now s + delay)%N).
Proof.
  intros Hl Hh Hi Hb Hne.
  pose proof (blank_false_truthy text Hb) as Ht.
  destruct (setQuery_keeps delay text s Hne)
    as (Hq' & Hl' & _ & _ & Hc' & Hr' & _).
  destruct (setQuery_nonempty delay text s Hne Ht)
    as (Htm' & Hres' & Hp' & Hh' & Hi').
  assert (loadMore (setQuery delay text s)
          = (searchMovies text (page s + 1)
               (set_page (page s + 1) (setQuery delay text s))).1) as ->.
  { unfold loadMore. by rewrite Hl', Hh', Hi', Hq', Hp', Hl, Hh, Hi, Ht. }
  rewrite searchMovies_page.
  destruct (searchMovies_issues text (page s + 1)
              (set_page (page s + 1) (setQuery delay text s)) Hb)
    as (_&_&_&->&_&_&_&->&_).
  cbn. rewrite Hr', Hc', Hres'. repeat split.
  unfold searchMovies. rewrite Hb. unfold abort_current. cbn.
  destruct (abortControllerRef (setQuery delay text s)); cbn; exact Htm'.
Qed.

Lemma loadMore_before_timer_fires_witness :
  requests (loadMore (setQuery 300 "joker" Sample.loaded))
  = (requests Sample.loaded
     ++ [{| rq_query := "joker"; rq_page := page Sample.loaded + 1;
            rq_controller := controllers Sample.loaded |}])%list.
Proof.
  apply (loadMore_before_timer_fires 300 Sample.loaded "joker");
    try (vm_compute; reflexivity).
  vm_compute. discriminate.
Defined.

(** X14.  Clearing the input does not stop a debounce timer that is
    pending.  If the timer is pending for a text that is not blank and the
    input is cleared, then once the delay has passed the search of that
    text still runs: a request for it and page 1 is sent and loading goes
    on, while the query is the empty string. *)
Theorem cleared_query_still_searches delay s (q : string) :
  armed delay q s →
  JS.blank q = false →
  query (advance delay (setQuery delay "" s)) = ""
  ∧ requests (advance delay (setQuery delay "" s))
    = (requests s
       ++ [{| rq_query := q; rq_page := 1;
              rq_controller := controllers s |}])%list
  ∧ calls (advance delay (setQuery delay "" s))
    = (calls s ++ [(q, 1%Z)])%list
  ∧ loading (advance delay (setQuery delay "" s)) = true.
Proof.
  intros [Hq Htm] Hb.
  assert ("" ≠ query s) as Hne.
  { rewrite Hq. intros <-. discriminate. }
  destruct (setQuery_keeps delay "" s Hne)
    as (Hq' & _ & _ & _ & Hc' & Hr' & Hcalls' & Hn' & _).
  assert (timer (setQuery delay "" s) = timer s) as Htm'.
  { rewrite setQuery_changed by done. unfold effect, abort_current.
    destruct s as [? ? ? ? ? ? ref ? ? ? ? ? ? ?]. cbn. by destruct ref. }
  unfold advance. cbn. rewrite Htm', Htm, Hn'.
  assert ((now s + delay <=? now s + delay)%N = true) as ->
    by (apply N.leb_le; lia).
  destruct (debouncedSearch_spec q
              (set_timer None
                 (set_now (now s + delay)%N (setQuery delay "" s))))
    as (-> & _ & _ & -> & _ & ->).
  rewrite Hb. cbn. rewrite Hq', Hr', Hc', Hcalls'. repeat split.
  unfold debouncedSearch, searchMovies. rewrite Hb. by cbn.
Qed.

Lemma cleared_query_still_searches_witness :
  query (advance 300 (setQuery 300 ""
                        (setQuery 300 "joker" Search.initial))) = ""
  ∧ requests (advance 300 (setQuery 300 ""
                             (setQuery 300 "joker" Search.initial)))
    = (requests (setQuery 300 "joker" Search.initial)
       ++ [{| rq_query := "joker"; rq_page := 1;
              rq_controller :=
                controllers (setQuery 300 "joker" Search.initial) |}])%list
  ∧ calls (advance 300 (setQuery 300 ""
                          (setQuery 300 "joker" Search.initial)))
    = (calls (setQuery 300 "joker" Search.initial) ++ [("joker", 1%Z)])%list
  ∧ loading (advance 300 (setQuery 300 ""
                            (setQuery 300 "joker" Search.initial))) = true.
Proof.
  apply (cleared_query_still_searches 300
           (setQuery 300 "joker" Search.initial) "joker").
  - split; vm_compute; reflexivity.
  - reflexivity.
Defined.

(** X15.  Two changes of the query that are at least the delay apart are
    searched one after the other: each runs its own search for page 1, and
    the request of the first is aborted when the second change comes, so
    only the second is outstanding at the end. *)
Theorem separate_changes_search_separately delay s (q1 q2 : string)
    (d1 d2 : N) :
  JS.blank q1 = false →
  JS.blank q2 = false →
  q1 ≠ query s →
  q2 ≠ q1 →
  (delay ≤ d1)%N →
  (delay ≤ d2)%N →
  requests (run delay [SetQuery q1; Advance d1; SetQuery q2; Advance d2] s)
    = (requests s
       ++ [{| rq_query := q1; rq_page := 1;
              rq_controller := controllers s |};
           {| rq_query := q2; rq_page := 1;
              rq_controller := S (controllers s) |}])%list
  ∧ controllers s
      ∈ aborted (run delay
                   [SetQuery q1; Advance d1; SetQuery q2; Advance d2] s)
  ∧ abortControllerRef
      (run delay [SetQuery q1; Advance d1; SetQuery q2; Advance d2] s)
    = Some (S (controllers s)).
Proof.
  intros Hb1 Hb2 Hne1 Hne2 Hd1 Hd2.
  assert (∀ (q : string) (d : N) t,
            JS.blank q = false → q ≠ query t → (delay ≤ d)%N →
            step delay (Advance d) (step delay (SetQuery q) t)
            = debouncedSearch q
                (set_timer None
                   (set_now (now t + d)%N (setQuery delay q t)))
            ∧ query (step delay (Advance d) (step delay (SetQuery q) t))
              = q) as Hgo.
  { intros q d t Hb Hne Hd. cbn [step].
    pose proof (blank_false_truthy q Hb) as Ht.
    destruct (setQuery_keeps delay q t Hne)
      as (Hq' & _ & _ & _ & _ & _ & _ & Hn' & _).
    destruct (setQuery_nonempty delay q t Hne Ht) as (Htm' & _).
    unfold advance. cbn. rewrite Htm', Hn'.
    assert ((now t + delay <=? now t + d)%N = true) as ->
      by (apply N.leb_le; lia).
    split; [done |].
    by destruct (debouncedSearch_spec q
                  (set_timer None
                     (set_now (now t + d)%N (setQuery delay q t))))
      as (_ & _ & _ & -> & _). }
  rewrite !run_cons. cbn [run foldl].
  destruct (Hgo q1 d1 s Hb1 Hne1 Hd1) as [-> Hq1].
  set (s1 := debouncedSearch q1
               (set_timer None (set_now (now s + d1)%N (setQuery delay q1 s))))
    in *.
  assert (q2 ≠ query s1) as Hne2' by by rewrite Hq1.
  destruct (Hgo q2 d2 s1 Hb2 Hne2' Hd2) as [-> _].
  destruct (setQuery_keeps delay q1 s Hne1)
    as (_ & _ & _ & _ & Hc0 & Hr0 & _).
  assert (requests s1
          = (requests s
             ++ [{| rq_query := q1; rq_page := 1;
                    rq_controller := controllers s |}])%list
          ∧ controllers s1 = S (controllers s)
          ∧ abortControllerRef s1 = Some (controllers s)) as (Hr1 & Hc1 & Ha1).
  { subst s1. unfold debouncedSearch.
    match goal with
    | |- context [searchMovies q1 1 ?t] =>
        destruct (searchMovies_issues q1 1 t Hb1) as (_ & -> & -> & -> & _)
    end.
    cbn. by rewrite Hr0, Hc0. }
  destruct (setQuery_keeps delay q2 s1 Hne2')
    as (_ & _ & _ & Ha2 & Hc2 & Hr2 & _ & _ & Hab2).
  unfold debouncedSearch.
  match goal with
  | |- context [searchMovies q2 1 ?t] =>
      destruct (searchMovies_issues q2 1 t Hb2) as (_ & -> & _ & -> & _);
      assert (controllers s ∈ aborted (searchMovies q2 1 t).1) as Hin
  end.
  { unfold searchMovies. rewrite Hb2. unfold abort_current. cbn.
    rewrite Ha2, Ha1. cbn. apply elem_of_cons. right.
    apply Hab2. exact Ha1. }
  cbn. rewrite Hr2, Hc2, Hr1, Hc1, <- app_assoc. done.
Qed.

Lemma separate_changes_search_separately_witness :
  requests (run 300 [SetQuery "bat"; Advance 300; SetQuery "joker";
                     Advance 450] initial)
    = (requests initial
       ++ [{| rq_query := "bat"; rq_page := 1;
              rq_controller := controllers initial |};
           {| rq_query := "joker"; rq_page := 1;
              rq_controller := S (controllers initial) |}])%list
  ∧ controllers initial
      ∈ aborted (run 300 [SetQuery "bat"; Advance 300; SetQuery "joker";
                          Advance 450] initial)
  ∧ abortControllerRef
      (run 300 [SetQuery "bat"; Advance 300; SetQuery "joker";
                Advance 450] initial)
    = Some (S (controllers initial)).
Proof.
  apply (separate_changes_search_separately 300 initial "bat" "joker"
           300 450);
    try reflexivity; try discriminate; vm_compute; discriminate.
Defined.

(** *** What the search page shows *)

(** X16.  In a state a mounted hook can reach, when [loadMore] passes its
    guards for a query that is not blank, the search page shows the
    "Loading more movies" line and keeps the scroll sentinel: loading is
    on, has-more is still on, and the list is not empty. *)
Theorem loading_more_is_shown delay (es : list event) :
  loading (run delay es initial) = false →
  hasMore (run delay es initial) = true →
  isInitialLoad (run delay es initial) = false →
  JS.blank (query (run delay es initial)) = false →
  MovieSearch.showLoadingMore (loadMore (run delay es initial)) = true
  ∧ MovieSearch.showSentinel (loadMore (run delay es initial)) = true.
Proof.
  intros Hl Hh Hi Hq.
  destruct (run_invariant delay results_sound (results_sound_step delay)
              es initial) as [_ Hrec]; [by split |].
  specialize (Hrec Hh). revert Hl Hh Hi Hq Hrec.
  generalize (run delay es initial). intros s Hl Hh Hi Hq Hrec.
  assert (loadMore s
          = (searchMovies (query s) (page s + 1)
               (set_page (page s + 1) s)).1) as ->.
  { unfold loadMore.
    by rewrite Hl, Hh, Hi, (blank_false_truthy _ Hq). }
  unfold MovieSearch.showLoadingMore, MovieSearch.showSentinel,
    MovieSearch.movieList.
  destruct (searchMovies_issues (query s) (page s + 1)
              (set_page (page s + 1) s) Hq)
    as (_&_&_&_&_&->&_&->&_&->).
  cbn. rewrite Hh. split; [| done].
  unfold records in Hrec. destruct (results s) as [r|]; [| done].
  cbn in *. by destruct (Search r) as [[|m l]|].
Qed.

Lemma loading_more_is_shown_witness :
  MovieSearch.showLoadingMore
    (loadMore
       (run 300 [SetQuery "batman"; Advance 300;
                 Settle Sample.batman_request (Resolved Sample.first_page)]
            initial))
  = true
  ∧ MovieSearch.showSentinel
      (loadMore
         (run 300 [SetQuery "batman"; Advance 300;
                   Settle Sample.batman_request
                          (Resolved Sample.first_page)]
              initial))
    = true.
Proof.
  apply (loading_more_is_shown 300
           [SetQuery "batman"; Advance 300;
            Settle Sample.batman_request (Resolved Sample.first_page)]);
    vm_compute; reflexivity.
Defined.

End SearchFurther.

(** ** The detail fetcher, continued *)

Section DetailsFurther.

Import Details.

Implicit Types (s : state) (rq : request) (o : outcome) (e : event)
  (id : string).

Lemma details_refs_kept rq o s :
  abortControllerRef (fetchDetails_settled rq o s) = abortControllerRef s
  ∧ controllers (fetchDetails_settled rq o s) = controllers s
  ∧ requests (fetchDetails_settled rq o s) = requests s
  ∧ aborted (fetchDetails_settled rq o s) = aborted s
  ∧ cache (fetchDetails_settled rq o s) = cache s.
Proof.
  unfold fetchDetails_settled, finally.
  destruct o as [d|err]; [unfold on_response | unfold on_failure];
    repeat case_match; done.
Qed.

Lemma details_settled_stale rq o s :
  is_current rq s = false → fetchDetails_settled rq o s = s.
Proof.
  intros Hst. unfold fetchDetails_settled, finally.
  destruct o as [d|err].
  - unfold on_response. by rewrite !Hst.
  - unfold on_failure. destruct err; by rewrite ?Hst.
Qed.

Lemma details_settled_current rq o s :
  is_current rq s = true →
  fetchDetails_settled rq o s
  = set_loading false
      match o with
      | Resolved d => on_response rq d s
      | Rejected err => on_failure rq err s
      end.
Proof.
  intros Hcur. unfold fetchDetails_settled, finally.
  assert (is_current rq
            match o with
            | Resolved d => on_response rq d s
            | Rejected err => on_failure rq err s
            end = true) as ->; [| done].
  unfold is_current in *. apply bool_decide_eq_true.
  apply bool_decide_eq_true in Hcur. rewrite <- Hcur.
  destruct o as [d|err]; [unfold on_response | unfold on_failure];
    repeat case_match; done.
Qed.

Lemma show_fetches id s :
  JS.truthy id = true →
  show (Some id) s = (fetchDetails id (abort_current s)).1.
Proof. intros Hid. unfold show, effect, cleanup. by rewrite Hid. Qed.

Lemma show_clears (movieId : option string) s :
  JS.truthy_opt movieId = false →
  show movieId s = set_error None (set_details None (abort_current s)).
Proof.
  intros Hm. unfold show, effect, cleanup.
  destruct movieId as [id|]; [| done]. cbn in Hm. by rewrite Hm.
Qed.

(** What a render with a non-empty [movieId] sends and leaves. *)
Lemma show_sends id s :
  JS.truthy id = true →
  requests (show (Some id) s)
    = (requests s ++ [{| rq_id := id; rq_controller := controllers s |}])%list
  ∧ controllers (show (Some id) s) = S (controllers s)
  ∧ abortControllerRef (show (Some id) s) = Some (controllers s)
  ∧ loading (show (Some id) s) = true
  ∧ error (show (Some id) s) = None
  ∧ details (show (Some id) s) = details s
  ∧ cache (show (Some id) s) = cache s
  ∧ (∀ c, abortControllerRef s = Some c → c ∈ aborted (show (Some id) s))
  ∧ (∀ c, c ∈ aborted s → c ∈ aborted (show (Some id) s)).
Proof.
  intros Hid. rewrite show_fetches, fetchDetails_issues by done.
  unfold abort_current. destruct s as [? ? ? ref ? ? ? ?]. cbn.
  destruct ref as [c0|]; cbn; repeat split; try done.
  - intros c [= ->]. apply list_elem_of_here.
  - intros c Hin. rewrite !elem_of_cons. auto.
Qed.

Lemma details_newer_not_current rq s :
  newer (rq_controller rq) s → is_current rq s = false.
Proof.
  intros (c' & Href & Hlt & _). unfold is_current.
  apply bool_decide_eq_false. rewrite Href. intros [= ->]. lia.
Qed.

Lemma details_newer_step c e s : newer c s → newer c (step e s).
Proof.
  intros (c' & Href & Hlt & Hlt'). destruct e as [m|rq o|]; cbn [step].
  - destruct (JS.truthy_opt m) eqn:Hm.
    + destruct m as [id|]; [| done]. cbn in Hm.
      destruct (show_sends id s Hm) as (_ & Hc & Ha & _).
      exists (controllers s). rewrite Hc, Ha. split; [done | lia].
    + rewrite show_clears by done. exists c'. unfold abort_current.
      by rewrite Href.
  - destruct (details_refs_kept rq o s) as (Ha & Hc & _).
    exists c'. by rewrite Ha, Hc.
  - exists c'. unfold cleanup, abort_current. by rewrite Href.
Qed.

Lemma details_newer_run c (es : list event) s :
  newer c s → newer c (run es s).
Proof.
  revert s. induction es as [|e es IH]; intros s Hn; [done |].
  apply IH. by apply details_newer_step.
Qed.

Lemma details_tracked_abort s : tracked s → tracked (abort_current s).
Proof.
  intros Ht rq Hin. unfold abort_current in *.
  destruct (abortControllerRef s) as [c0|] eqn:Href; [| by apply Ht].
  cbn in *. rewrite Href.
  destruct (Ht rq Hin) as [Hin' | Hcur]; [left | right; congruence].
  apply elem_of_cons. by right.
Qed.

Lemma details_tracked_step e s : tracked s → tracked (step e s).
Proof.
  intros Ht. destruct e as [m|rq o|]; cbn [step].
  - destruct (JS.truthy_opt m) eqn:Hm.
    + destruct m as [id|]; [| done]. cbn in Hm.
      destruct (show_sends id s Hm)
        as (Hr & _ & Ha & _ & _ & _ & _ & Hab & Hkeep).
      intros rq. rewrite Hr, Ha.
      intros [Hin | ->%list_elem_of_singleton]%elem_of_app; [| by right].
      left. destruct (Ht rq Hin) as [Hin' | Hcur]; [by apply Hkeep |].
      by apply Hab.
    + rewrite show_clears by done.
      apply details_tracked_abort in Ht. intros rq Hin. by apply Ht.
  - destruct (details_refs_kept rq o s) as (Ha & _ & Hr & Hab & _).
    intros rq'. rewrite Hr, Ha, Hab. apply Ht.
  - by apply details_tracked_abort.
Qed.

Lemma details_cache_step e s : cache (step e s) = cache s.
Proof.
  destruct e as [m|rq o|]; cbn [step].
  - destruct (JS.truthy_opt m) eqn:Hm.
    + destruct m as [id|]; [| done]. cbn in Hm.
      by destruct (show_sends id s Hm) as (_&_&_&_&_&_&?&_).
    + rewrite show_clears by done. unfold abort_current.
      by destruct (abortControllerRef s).
  - by destruct (details_refs_kept rq o s) as (_&_&_&_&?).
  - unfold cleanup, abort_current. by destruct (abortControllerRef s).
Qed.

Lemma details_cache_run (es : list event) s : cache (run es s) = cache s.
Proof.
  revert s. induction es as [|e es IH]; intros s; [done |].
  cbn [run foldl].
  change (foldl (λ s0 e0, step e0 s0) (step e s) es)
    with (run es (step e s)).
  by rewrite IH, details_cache_step.
Qed.

(** X17.  A detail request that has been superseded is discarded: once
    the hook has been rendered with another non-empty [movieId], whatever
    happens afterwards, the settlement of the earlier request -- with any
    response or error -- leaves the state exactly as it is. *)
Theorem superseded_details_are_discarded (idA idB : string)
    (later : list event) o s :
  JS.truthy idA = true →
  JS.truthy idB = true →
  fetchDetails_settled
    {| rq_id := idA; rq_controller := controllers s |} o
    (run later (show (Some idB) (show (Some idA) s)))
  = run later (show (Some idB) (show (Some idA) s)).
Proof.
  intros HA HB.
  apply details_settled_stale, details_newer_not_current, details_newer_run.
  cbn [rq_controller].
  destruct (show_sends idA s HA) as (_ & HcA & _).
  destruct (show_sends idB (show (Some idA) s) HB) as (_ & HcB & HaB & _).
  exists (controllers (show (Some idA) s)).
  rewrite HaB, HcB, HcA. split; [done | lia].
Qed.

Lemma superseded_details_are_discarded_witness :
  fetchDetails_settled
    {| rq_id := "tt0372784";
       rq_controller := controllers (initial Sample.warm_cache) |}
    (Resolved Sample.batman_begins)
    (run [Show None]
       (show (Some "tt0468569")
          (show (Some "tt0372784") (initial Sample.warm_cache))))
  = run [Show None]
      (show (Some "tt0468569")
         (show (Some "tt0372784") (initial Sample.warm_cache))).
Proof.
  apply (superseded_details_are_discarded "tt0372784" "tt0468569"
           [Show None] (Resolved Sample.batman_begins)
           (initial Sample.warm_cache)); reflexivity.
Defined.

(** X18.  From a render with a non-empty [movieId] to the settlement of
    the request it sends.  A response that is not [Response: "False"]
    becomes the details, with no error and loading off.  A failure of the
    transport other than a cancellation shows the generic message, with no
    details and loading off.  A cancellation shows no message and keeps
    the details; loading goes off. *)
Theorem details_round_trip id (d : IMovieDetails) s :
  JS.truthy id = true →
  (d_Response d ≠ "False" →
   details (fetchDetails_settled
              {| rq_id := id; rq_controller := controllers s |}
              (Resolved d) (show (Some id) s)) = Some d
   ∧ error (fetchDetails_settled
              {| rq_id := id; rq_controller := controllers s |}
              (Resolved d) (show (Some id) s)) = None
   ∧ loading (fetchDetails_settled
                {| rq_id := id; rq_controller := controllers s |}
                (Resolved d) (show (Some id) s)) = false)
  ∧ (details (fetchDetails_settled
                {| rq_id := id; rq_controller := controllers s |}
                (Rejected OtherFailure) (show (Some id) s)) = None
     ∧ error (fetchDetails_settled
                {| rq_id := id; rq_controller := controllers s |}
                (Rejected OtherFailure) (show (Some id) s))
       = Some generic_message
     ∧ loading (fetchDetails_settled
                  {| rq_id := id; rq_controller := controllers s |}
                  (Rejected OtherFailure) (show (Some id) s)) = false)
  ∧ fetchDetails_settled
      {| rq_id := id; rq_controller := controllers s |}
      (Rejected Cancelled) (show (Some id) s)
    = set_loading false (show (Some id) s).
Proof.
  intros Hid.
  destruct (show_sends id s Hid) as (_ & _ & Ha & _ & He & _).
  assert (is_current {| rq_id := id; rq_controller := controllers s |}
                     (show (Some id) s) = true) as Hcur.
  { unfold is_current. rewrite Ha. by apply bool_decide_eq_true. }
  rewrite !details_settled_current by done.
  unfold on_response, on_failure. rewrite Hcur.
  split; [| by split].
  intros HR%String.eqb_neq. rewrite HR.
  split; [reflexivity | split; [exact He | reflexivity]].
Qed.

Lemma details_round_trip_witness :
  details (fetchDetails_settled
             {| rq_id := "tt0372784";
                rq_controller := controllers (initial Cache.empty) |}
             (Resolved Sample.batman_begins)
             (show (Some "tt0372784") (initial Cache.empty)))
    = Some Sample.batman_begins
  ∧ error (fetchDetails_settled
             {| rq_id := "tt0372784";
                rq_controller := controllers (initial Cache.empty) |}
             (Resolved Sample.batman_begins)
             (show (Some "tt0372784") (initial Cache.empty)))
    = None
  ∧ loading (fetchDetails_settled
               {| rq_id := "tt0372784";
                  rq_controller := controllers (initial Cache.empty) |}
               (Resolved Sample.batman_begins)
               (show (Some "tt0372784") (initial Cache.empty)))
    = false.
Proof.
  refine (proj1 (details_round_trip "tt0372784" Sample.batman_begins
                   (initial Cache.empty) eq_refl) _).
  discriminate.
Defined.

(** X19.  A render without a [movieId] (null, or the empty string) sends
    nothing: it aborts the request of the current call, drops details and
    error, and leaves loading as it was.  When the aborted request then
    rejects with the cancellation, loading goes off and nothing else
    changes. *)
Theorem show_nothing_clears (movieId : option string) rq s :
  JS.truthy_opt movieId = false →
  details (show movieId s) = None
  ∧ error (show movieId s) = None
  ∧ loading (show movieId s) = loading s
  ∧ requests (show movieId s) = requests s
  ∧ (is_current rq s = true →
     rq_controller rq ∈ aborted (show movieId s)
     ∧ fetchDetails_settled rq (Rejected Cancelled) (show movieId s)
       = set_loading false (show movieId s)).
Proof.
  intros Hm. rewrite show_clears by done.
  split; [done |]. split; [done |].
  split; [unfold abort_current; by destruct (abortControllerRef s) |].
  split; [unfold abort_current; by destruct (abortControllerRef s) |].
  intros Hcur. unfold is_current in Hcur.
  apply bool_decide_eq_true in Hcur.
  assert (abort_current s
          = set_aborted (rq_controller rq :: aborted s) s) as ->.
  { unfold abort_current. by rewrite Hcur. }
  split; [apply list_elem_of_here |].
  rewrite details_settled_current; [done |].
  unfold is_current. by apply bool_decide_eq_true.
Qed.

Lemma show_nothing_clears_witness :
  details (show None (show (Some "tt0372784") (initial Cache.empty))) = None
  ∧ error (show None (show (Some "tt0372784") (initial Cache.empty))) = None
  ∧ loading (show None (show (Some "tt0372784") (initial Cache.empty)))
    = loading (show (Some "tt0372784") (initial Cache.empty))
  ∧ requests (show None (show (Some "tt0372784") (initial Cache.empty)))
    = requests (show (Some "tt0372784") (initial Cache.empty)).
Proof.
  destruct (show_nothing_clears None
              {| rq_id := "tt0372784"; rq_controller := 0 |}
              (show (Some "tt0372784") (initial Cache.empty)) eq_refl)
    as (H1 & H2 & H3 & H4 & _).
  exact (conj H1 (conj H2 (conj H3 H4))).
Defined.

(** X20.  The hook fetches on every change of [movieId] to a non-empty
    id and never looks at the cache.  A render with a [movieId] that
    differs from the one before and is not empty sends one request for
    it, whatever the cache holds and whatever was fetched before, and
    leaves the details as they are until the response arrives; a render
    with the same [movieId] does nothing.  Nothing that happens to the
    hook changes the cache. *)
Theorem details_never_use_cache id (prev : option string)
    (es : list event) s :
  JS.truthy id = true →
  prev ≠ Some id →
  requests (render prev (Some id) s)
    = (requests s ++ [{| rq_id := id; rq_controller := controllers s |}])%list
  ∧ details (render prev (Some id) s) = details s
  ∧ render (Some id) (Some id) s = s
  ∧ cache (run es s) = cache s.
Proof.
  intros Hid Hprev. unfold render.
  rewrite bool_decide_eq_false_2 by done.
  rewrite bool_decide_eq_true_2 by done.
  destruct (show_sends id s Hid) as (Hr & _ & _ & _ & _ & Hd & _).
  split; [done | split; [done | split; [done |]]]. apply details_cache_run.
Qed.

Lemma details_never_use_cache_witness :
  requests (render None (Some "tt0372784") (initial Sample.warm_cache))
    = (requests (initial Sample.warm_cache)
       ++ [{| rq_id := "tt0372784";
              rq_controller :=
                controllers (initial Sample.warm_cache) |}])%list
  ∧ details (render None (Some "tt0372784") (initial Sample.warm_cache))
    = details (initial Sample.warm_cache)
  ∧ render (Some "tt0372784") (Some "tt0372784")
      (initial Sample.warm_cache)
    = initial Sample.warm_cache
  ∧ cache (run [Show (Some "tt0372784");
                Settle {| rq_id := "tt0372784"; rq_controller := 0 |}
                       (Resolved Sample.batman_begins)]
               (initial Sample.warm_cache))
    = cache (initial Sample.warm_cache).
Proof.
  apply (details_never_use_cache "tt0372784" None
           [Show (Some "tt0372784");
            Settle {| rq_id := "tt0372784"; rq_controller := 0 |}
                   (Resolved Sample.batman_begins)]
           (initial Sample.warm_cache)); [reflexivity | discriminate].
Defined.

(** X21.  Whatever happens to one instance of the hook, each request it
    has sent has been aborted unless it belongs to the call that is
    current: an instance has at most one request outstanding. *)
Theorem one_detail_request_outstanding (c : Cache.cache)
    (es : list event) :
  ∀ rq, rq ∈ requests (run es (initial c)) →
        rq_controller rq ∈ aborted (run es (initial c))
        ∨ is_current rq (run es (initial c)) = true.
Proof.
  assert (∀ es' s, tracked s → tracked (run es' s)) as Hrun.
  { intros es'. induction es' as [|e es' IH]; intros s Ht; [done |].
    apply IH. by apply details_tracked_step. }
  intros rq Hin.
  destruct (Hrun es (initial c)) with (rq := rq) as [Hab | Hcur];
    [| done | by left |].
  - intros rq' Hin'. by apply elem_of_nil in Hin'.
  - right. unfold is_current. by apply bool_decide_eq_true.
Qed.

Lemma one_detail_request_outstanding_witness :
  rq_controller {| rq_id := "tt0372784"; rq_controller := 0 |}
    ∈ aborted (run [Show (Some "tt0372784"); Show None]
                   (initial Cache.empty))
  ∨ is_current {| rq_id := "tt0372784"; rq_controller := 0 |}
               (run [Show (Some "tt0372784"); Show None]
                    (initial Cache.empty))
    = true.
Proof.
  apply (one_detail_request_outstanding Cache.empty
           [Show (Some "tt0372784"); Show None]).
  assert (requests (run [Show (Some "tt0372784"); Show None]
                        (initial Cache.empty))
          = [{| rq_id := "tt0372784"; rq_controller := 0 |}]) as ->
    by (vm_compute; reflexivity).
  apply list_elem_of_here.
Defined.

End DetailsFurther.

(** ** The movie card *)

Section CardProperties.

Import MovieCard.

Implicit Types (s : state) (e : event).

(** X22.  Leaving a hovered card and coming back in less than 100 ms
    changes nothing but the clock: the card stays hovered, the timeout is
    gone, and its detail hook is untouched -- no request is aborted and
    none is sent. *)
Theorem hover_survives_short_leave (dt : N) s :
  isHovered s = true →
  (dt < 100)%N →
  run [MouseLeave; Advance dt; MouseEnter] s
  = {| movie := movie s; isHovered := true; imageError := imageError s;
       hoverTimeoutRef := None; now := (now s + dt)%N; hook := hook s |}.
Proof.
  intros Hh Hdt. destruct s as [m h ie ref t hk]. cbn in Hh. subst h.
  cbn. unfold advance. cbn.
  assert ((t + 100 <=? t + dt)%N = false) as -> by (apply N.leb_gt; lia).
  reflexivity.
Qed.

Lemma hover_survives_short_leave_witness :
  run [MouseLeave; Advance 60; MouseEnter]
      (handleMouseEnter
         (mount (Sample.movie "tt0372784" "Batman Begins") Cache.empty))
  = {| movie := movie (handleMouseEnter
                         (mount (Sample.movie "tt0372784" "Batman Begins")
                                Cache.empty));
       isHovered := true;
       imageError := imageError
                       (handleMouseEnter
                          (mount (Sample.movie "tt0372784" "Batman Begins")
                                 Cache.empty));
       hoverTimeoutRef := None;
       now := (now (handleMouseEnter
                      (mount (Sample.movie "tt0372784" "Batman Begins")
                             Cache.empty)) + 60)%N;
       hook := hook (handleMouseEnter
                       (mount (Sample.movie "tt0372784" "Batman Begins")
                              Cache.empty)) |}.
Proof.
  apply (hover_survives_short_leave 60
           (handleMouseEnter
              (mount (Sample.movie "tt0372784" "Batman Begins")
                     Cache.empty))); reflexivity.
Defined.

(** X23.  Leaving a hovered card for 100 ms or more closes the tooltip:
    the card is no longer hovered, the hook is rendered without a
    [movieId], so details and error are dropped, the request of the
    current call is aborted and no request is sent. *)
Theorem leave_closes_tooltip (dt : N) s :
  isHovered s = true →
  (100 ≤ dt)%N →
  isHovered (run [MouseLeave; Advance dt] s) = false
  ∧ tooltipContent (run [MouseLeave; Advance dt] s) = NoTooltip
  ∧ hoverTimeoutRef (run [MouseLeave; Advance dt] s) = None
  ∧ Details.details (hook (run [MouseLeave; Advance dt] s)) = None
  ∧ Details.error (hook (run [MouseLeave; Advance dt] s)) = None
  ∧ Details.requests (hook (run [MouseLeave; Advance dt] s))
    = Details.requests (hook s)
  ∧ (∀ c, Details.abortControllerRef (hook s) = Some c →
          c ∈ Details.aborted (hook (run [MouseLeave; Advance dt] s))).
Proof.
  intros Hh Hdt. destruct s as [m h ie ref t hk]. cbn in Hh. subst h.
  cbn. unfold advance. cbn.
  assert ((t + 100 <=? t + dt)%N = true) as -> by (apply N.leb_le; lia).
  cbn. unfold Details.show, Details.cleanup, Details.abort_current. cbn.
  destruct (Details.abortControllerRef hk) as [c0|] eqn:Href; cbn;
    repeat split; try done.
  intros c [= ->]. apply list_elem_of_here.
Qed.

Lemma leave_closes_tooltip_witness :
  isHovered
    (run [MouseLeave; Advance 100]
       (handleMouseEnter
          (mount (Sample.movie "tt0372784" "Batman Begins") Cache.empty)))
  = false
  ∧ tooltipContent
      (run [MouseLeave; Advance 100]
         (handleMouseEnter
            (mount (Sample.movie "tt0372784" "Batman Begins") Cache.empty)))
    = NoTooltip.
Proof.
  destruct (leave_closes_tooltip 100
              (handleMouseEnter
                 (mount (Sample.movie "tt0372784" "Batman Begins")
                        Cache.empty)) eq_refl ltac:(done))
    as (H1 & H2 & _).
  exact (conj H1 H2).
Defined.

Lemma enter_unhovered s :
  isHovered s = false →
  handleMouseEnter s
  = {| movie := movie s; isHovered := true; imageError := imageError s;
       hoverTimeoutRef := None; now := now s;
       hook := Details.show (Some (imdbID (movie s))) (hook s) |}.
Proof.
  intros Hh. destruct s as [m h ie ref t hk]. cbn in Hh. by subst h.
Qed.

Lemma or_else_truthy (o : option string) (d : string) :
  JS.truthy d = true → JS.truthy (JS.or_else o d) = true.
Proof.
  intros Hd. unfold JS.or_else. destruct o as [e|]; [| done].
  by destruct (JS.truthy e) eqn:He.
Qed.

(** X24.  What the tooltip of a card shows follows the fetch.  Hovering a
    card with a non-empty id shows "Loading..." at once.  When the request
    succeeds the tooltip shows the record; when the transport fails it
    shows the generic message; when the remote answers with
    [Response: "False"] it shows the rate-limit message for "Request limit
    reached!" and otherwise the remote's text or the fallback. *)
Theorem tooltip_follows_fetch (d : IMovieDetails) s :
  isHovered s = false →
  JS.truthy (imdbID (movie s)) = true →
  tooltipContent (handleMouseEnter s) = LoadingText
  ∧ (d_Response d ≠ "False" →
     tooltipContent
       (run [MouseEnter;
             Settle {| Details.rq_id := imdbID (movie s);
                       Details.rq_controller :=
                         Details.controllers (hook s) |}
                    (Details.Resolved d)] s)
     = DetailsTooltip d)
  ∧ (d_Response d = "False" →
     tooltipContent
       (run [MouseEnter;
             Settle {| Details.rq_id := imdbID (movie s);
                       Details.rq_controller :=
                         Details.controllers (hook s) |}
                    (Details.Resolved d)] s)
     = ErrorText
         (if bool_decide (d_Error d = Some Details.request_limit_reached)
          then Details.rate_limit_message
          else JS.or_else (d_Error d) Details.fallback_message))
  ∧ tooltipContent
      (run [MouseEnter;
            Settle {| Details.rq_id := imdbID (movie s);
                      Details.rq_controller :=
                        Details.controllers (hook s) |}
                   (Details.Rejected Details.OtherFailure)] s)
    = ErrorText Details.generic_message.
Proof.
  intros Hh Hid. cbn [run foldl step]. rewrite (enter_unhovered s Hh).
  destruct (show_sends (imdbID (movie s)) (hook s) Hid)
    as (_ & _ & Ha & Hl & He & _).
  assert (Details.is_current
            {| Details.rq_id := imdbID (movie s);
               Details.rq_controller := Details.controllers (hook s) |}
            (Details.show (Some (imdbID (movie s))) (hook s)) = true)
    as Hcur.
  { unfold Details.is_current. rewrite Ha. by apply bool_decide_eq_true. }
  unfold tooltipContent, settle. cbn [isHovered hook negb].
  split; [by rewrite Hl |]. split; [| split].
  - intros HR%String.eqb_neq.
    rewrite details_settled_current by done.
    unfold Details.on_response. rewrite Hcur, HR.
    cbn [Details.loading Details.error Details.details Details.set_loading
         Details.set_details Details.set_error].
    by rewrite He.
  - intros HR.
    destruct (fetchDetails_settled_False _ d _ Hcur HR) as [Herr Hdet].
    assert (Details.loading
              (Details.fetchDetails_settled
                 {| Details.rq_id := imdbID (movie s);
                    Details.rq_controller := Details.controllers (hook s) |}
                 (Details.Resolved d)
                 (Details.show (Some (imdbID (movie s))) (hook s)))
            = false) as -> by by rewrite details_settled_current.
    rewrite Herr. case_bool_decide; [done |].
    by rewrite or_else_truthy.
  - rewrite details_settled_current by done.
    unfold Details.on_failure. by rewrite Hcur.
Qed.

Lemma tooltip_follows_fetch_witness :
  tooltipContent
    (handleMouseEnter
       (mount (Sample.movie "tt0372784" "Batman Begins") Cache.empty))
  = LoadingText.
Proof.
  exact (proj1 (tooltip_follows_fetch Sample.batman_begins
                  (mount (Sample.movie "tt0372784" "Batman Begins")
                         Cache.empty) eq_refl eq_refl)).
Defined.

(** X25.  A card fetches again every time it is hovered anew.  Hover a
    card, let its details arrive, leave it for 100 ms or more and hover it
    again: a second request for the same id is sent and the tooltip is
    back at "Loading...", whatever the cache holds. *)
Theorem every_hover_fetches (d : IMovieDetails) (dt : N) s :
  isHovered s = false →
  JS.truthy (imdbID (movie s)) = true →
  (100 ≤ dt)%N →
  Details.requests
    (hook (run [MouseEnter;
                Settle {| Details.rq_id := imdbID (movie s);
                          Details.rq_controller :=
                            Details.controllers (hook s) |}
                       (Details.Resolved d);
                MouseLeave; Advance dt; MouseEnter] s))
    = (Details.requests (hook s)
       ++ [{| Details.rq_id := imdbID (movie s);
              Details.rq_controller := Details.controllers (hook s) |};
           {| Details.rq_id := imdbID (movie s);
              Details.rq_controller :=
                S (Details.controllers (hook s)) |}])%list
  ∧ tooltipContent
      (run [MouseEnter;
            Settle {| Details.rq_id := imdbID (movie s);
                      Details.rq_controller :=
                        Details.controllers (hook s) |}
                   (Details.Resolved d);
            MouseLeave; Advance dt; MouseEnter] s)
    = LoadingText.
Proof.
  intros Hh Hid Hdt.
  set (rq := {| Details.rq_id := imdbID (movie s);
                Details.rq_controller := Details.controllers (hook s) |}).
  set (h1 := Details.fetchDetails_settled rq (Details.Resolved d)
               (Details.show (Some (imdbID (movie s))) (hook s))).
  assert (run [MouseEnter; Settle rq (Details.Resolved d); MouseLeave;
               Advance dt; MouseEnter] s
          = {| movie := movie s; isHovered := true;
               imageError := imageError s; hoverTimeoutRef := None;
               now := (now s + dt)%N;
               hook := Details.show (Some (imdbID (movie s)))
                         (Details.show None h1) |}) as ->.
  { cbn [run foldl step]. rewrite (enter_unhovered s Hh).
    unfold settle, handleMouseLeave, advance.
    cbn -[Details.show Details.fetchDetails_settled].
    assert ((now s + 100 <=? now s + dt)%N = true) as ->
      by (apply N.leb_le; lia).
    reflexivity. }
  destruct (show_sends (imdbID (movie s)) (hook s) Hid)
    as (Hr0 & Hc0 & _).
  destruct (details_refs_kept rq (Details.Resolved d)
              (Details.show (Some (imdbID (movie s))) (hook s)))
    as (_ & Hc1 & Hr1 & _).
  fold h1 in Hc1, Hr1.
  assert (Details.requests (Details.show None h1) = Details.requests h1
          ∧ Details.controllers (Details.show None h1)
            = Details.controllers h1) as [Hr2 Hc2].
  { rewrite show_clears by done. unfold Details.abort_current.
    by destruct (Details.abortControllerRef h1). }
  destruct (show_sends (imdbID (movie s)) (Details.show None h1) Hid)
    as (Hr3 & _ & _ & Hl3 & _).
  unfold tooltipContent. cbn [isHovered hook negb].
  rewrite Hr3, Hl3, Hr2, Hc2, Hr1, Hc1, Hr0, Hc0, <- app_assoc. done.
Qed.

Lemma every_hover_fetches_witness :
  tooltipContent
    (run [MouseEnter;
          Settle {| Details.rq_id :=
                      imdbID (movie (mount (Sample.movie "tt0372784"
                                                         "Batman Begins")
                                           Sample.warm_cache));
                    Details.rq_controller :=
                      Details.controllers
                        (hook (mount (Sample.movie "tt0372784"
                                                   "Batman Begins")
                                     Sample.warm_cache)) |}
                 (Details.Resolved Sample.batman_begins);
          MouseLeave; Advance 100; MouseEnter]
       (mount (Sample.movie "tt0372784" "Batman Begins") Sample.warm_cache))
  = LoadingText.
Proof.
  exact (proj2 (every_hover_fetches Sample.batman_begins 100
                  (mount (Sample.movie "tt0372784" "Batman Begins")
                         Sample.warm_cache)
                  eq_refl eq_refl ltac:(done))).
Defined.

Lemma card_step_keeps e s :
  movie (step e s) = movie s
  ∧ (imageError s = true → imageError (step e s) = true).
Proof.
  destruct e as [| |dt| |rq o]; cbn [step];
    unfold handleMouseEnter, handleMouseLeave, advance, setIsHovered;
    destruct s as [m h ie ref t hk]; cbn; repeat case_match; by cbn.
Qed.

(** X26.  Once the poster of a card has failed to load, the card shows
    the placeholder for good, whatever happens to it afterwards; a card
    whose poster is "N/A" never shows an image at all. *)
Theorem image_error_is_final (es : list event) s :
  showsPoster (run es (handleImageError s)) = false
  ∧ (Poster (movie s) = "N/A" → showsPoster (run es s) = false).
Proof.
  assert (∀ es' t, movie (run es' t) = movie t
                   ∧ (imageError t = true →
                      imageError (run es' t) = true)) as Hrun.
  { intros es'. induction es' as [|e es' IH]; intros t; [done |].
    cbn [run foldl].
    change (foldl (λ s0 e0, step e0 s0) (step e t) es')
      with (run es' (step e t)).
    destruct (IH (step e t)) as [Hm Hi].
    destruct (card_step_keeps e t) as [Hm' Hi'].
    split; [by rewrite Hm | auto]. }
  unfold showsPoster. split.
  - destruct (Hrun es (handleImageError s)) as [_ ->]; [| done].
    by rewrite andb_false_r.
  - intros HP. destruct (Hrun es s) as [-> _]. by rewrite HP.
Qed.

Lemma image_error_is_final_witness :
  showsPoster
    (run [MouseEnter; MouseLeave]
       (mount (Sample.movie "tt0372784" "Batman Begins") Cache.empty))
  = false.
Proof.
  apply (proj2 (image_error_is_final [MouseEnter; MouseLeave]
                  (mount (Sample.movie "tt0372784" "Batman Begins")
                         Cache.empty))).
  reflexivity.
Defined.

End CardProperties.

(** ** The tooltip *)

Section TooltipProperties.

Import MovieTooltip.

Lemma split_comma_length (s : string) :
  length (split_comma s) = S (commas s).
Proof.
  induction s as [|c r IH]; [done |]. cbn.
  destruct (Ascii.eqb c ","); cbn; [by rewrite IH |].
  destruct (split_comma r); cbn in *; [done | lia].
Qed.

Lemma split_comma_no_comma (s piece : string) :
  piece ∈ split_comma s → commas piece = 0.
Proof.
  revert piece. induction s as [|c r IH]; intros piece; cbn.
  - by intros ->%list_elem_of_singleton.
  - destruct (Ascii.eqb c ",") eqn:Hc.
    + intros [-> | Hin]%elem_of_cons; [done | by apply IH].
    + destruct (split_comma r) as [|p ps]; cbn.
      * intros ->%list_elem_of_singleton. cbn. by rewrite Hc.
      * intros [-> | Hin]%elem_of_cons.
        -- cbn. rewrite Hc. apply IH. apply list_elem_of_here.
        -- apply IH. apply elem_of_cons. by right.
Qed.

Lemma trim_end_commas (s : string) : commas s = 0 → commas (trim_end s) = 0.
Proof.
  induction s as [|c r IH]; [done |]. cbn.
  destruct (Ascii.eqb c ",") eqn:Hc; [done |]. cbn. intros Hr.
  specialize (IH Hr). destruct (trim_end r) as [|c' r'].
  - destruct (JS.is_ws c); cbn; by rewrite ?Hc.
  - cbn in *. by rewrite Hc.
Qed.

Lemma skip_ws_commas (s : string) : commas s = 0 → commas (JS.skip_ws s) = 0.
Proof.
  induction s as [|c r IH]; [done |]. cbn.
  destruct (Ascii.eqb c ",") eqn:Hc; [done |]. cbn. intros Hr.
  destruct (JS.is_ws c); [by apply IH |]. cbn. by rewrite Hc.
Qed.

Lemma skip_ws_starts (s : string) : starts_with_ws (JS.skip_ws s) = false.
Proof.
  induction s as [|c r IH]; [done |]. cbn.
  by destruct (JS.is_ws c) eqn:Hc; cbn.
Qed.

Lemma trim_end_starts (s : string) :
  starts_with_ws s = false → starts_with_ws (trim_end s) = false.
Proof.
  destruct s as [|c r]; [done |]. cbn. intros Hc. rewrite Hc.
  by destruct (trim_end r).
Qed.

Lemma trim_end_ends (s : string) : ends_with_ws (trim_end s) = false.
Proof.
  induction s as [|c r IH]; [done |]. cbn.
  destruct (trim_end r) as [|c' r'] eqn:Hr.
  - by destruct (JS.is_ws c) eqn:Hc; cbn.
  - exact IH.
Qed.

(** X27.  The tooltip renders one paragraph per director: one more than
    the commas of the [Director] field, so at least one even for an empty
    field.  No paragraph contains a comma, and none begins or ends with
    white space. *)
Theorem directors_are_split_and_trimmed (movie : IMovieDetails) :
  length (directors movie) = S (commas (Director movie))
  ∧ ∀ name, name ∈ directors movie →
            commas name = 0
            ∧ starts_with_ws name = false
            ∧ ends_with_ws name = false.
Proof.
  unfold directors. split.
  - by rewrite length_fmap, split_comma_length.
  - intros name (piece & -> & Hin)%list_elem_of_fmap. unfold trim.
    split; [| split].
    + apply trim_end_commas, skip_ws_commas.
      by apply (split_comma_no_comma (Director movie)).
    + apply trim_end_starts, skip_ws_starts.
    + apply trim_end_ends.
Qed.

End TooltipProperties.
